(** * seller.py: reconciliation of a supplier feed with a marketplace catalogue

    A shallow embedding of the pure core of [seller.py] (Ozon seller API
    client) and the properties of its specification.

    Modelling conventions.
    - A Python [str] is a [string] holding its UTF-8 encoding.  The code
      only ever inspects ASCII characters (['.'], digits, ['_'], signs,
      white space); every byte of a non-ASCII character is >= 128, so
      working on bytes or on code points gives the same answers for
      [split] and [re.sub].  [int(...)] of a [str] follows CPython: a
      string with a non-ASCII character is first rewritten, code point by
      code point, with every Unicode decimal digit replaced by its ASCII
      digit and every Unicode white space by a space (tables of Unicode
      14.0, the database of CPython 3.11), and a literal of more than 4300
      digits is refused (the default [int_max_str_digits]).  [str] of an
      [int] is its decimal literal; the same limit on that side is out of
      reach of the numbers a sheet holds and is not modelled.
    - A cell of the supplier sheet is a [pyval]: [None], an [int], a [str],
      or an object of another type ([float], [bool], a date), which the code
      only ever passes to [str(...)] and [int(...)] and which has no
      [split]: it is given by what those two calls return or raise.
    - A raised exception is the [Raise] outcome of a [result].
    - The caller's [offer_ids] list is a Python list mutated in place by
      [create_stocks]; the model threads it explicitly: the function takes
      the list and returns the outcome together with the list as it is
      left for the caller. *)

From Stdlib Require Import ZArith Lia Ascii String DecimalString DecimalZ.
From stdpp Require Import base list strings gmap.

Local Open Scope string_scope.
Local Open Scope list_scope.
Local Open Scope Z_scope.

(** ** Python values, exceptions *)

Inductive exn : Type :=
| ValueError
| TypeError
| AttributeError
| IndexError
| OverflowError
| HTTPError.

Inductive result (A : Type) : Type :=
| Ok (a : A)
| Raise (e : exn).
Arguments Ok {A} a.
Arguments Raise {A} e.

Definition is_ok {A} (r : result A) : bool :=
  match r with Ok _ => true | Raise _ => false end.

(** A cell that is neither [None], an [int] nor a [str]: what [str(cell)]
    returns and what [int(cell)] returns or raises.  A float [5.0] is
    [("5.0", Ok 5)], [float("inf")] is [("inf", Raise OverflowError)], NaN
    is [("nan", Raise ValueError)], [True] is [("True", Ok 1)], a date is
    [("2024-01-31 00:00:00", Raise TypeError)]. *)
Record py_object : Type := PyObject {
  obj_str : string;
  obj_int : result Z
}.

Inductive pyval : Type :=
| PyNone
| PyInt (z : Z)
| PyStr (s : string)
| PyOther (o : py_object).

(** ** Built-ins the code relies on *)

Module Py.

(** [str(v)] *)
Definition str (v : pyval) : string :=
  match v with
  | PyNone => "None"
  | PyInt z => NilZero.string_of_int (Z.to_int z)
  | PyStr s => s
  | PyOther o => obj_str o
  end.

Definition is_digit (c : ascii) : bool :=
  let n := nat_of_ascii c in (48 <=? n)%nat && (n <=? 57)%nat.

Definition digit_val (c : ascii) : Z := Z.of_nat (nat_of_ascii c) - 48.

(** ASCII white space as [int()] sees it: TAB, LF, VT, FF, CR and space. *)
Definition is_space (c : ascii) : bool :=
  let n := nat_of_ascii c in
  ((9 <=? n)%nat && (n <=? 13)%nat) || (n =? 32)%nat.

Fixpoint is_ascii (s : string) : bool :=
  match s with
  | EmptyString => true
  | String c s' => (nat_of_ascii c <? 128)%nat && is_ascii s'
  end.

(** The code points of a UTF-8 string.  A byte that cannot start a
    character, or a character cut short, gives [bad_code_point], which is
    no digit and no white space. *)
Definition bad_code_point : N := 0xFFFFFF%N.

Definition continuation (b : ascii) : N := (N_of_ascii b - 0x80)%N.

Fixpoint code_points (s : string) : list N :=
  match s with
  | EmptyString => []
  | String b0 r0 =>
      let n0 := N_of_ascii b0 in
      if (n0 <? 0x80)%N then n0 :: code_points r0
      else if (n0 <? 0xC0)%N then bad_code_point :: code_points r0
      else if (n0 <? 0xE0)%N then
        match r0 with
        | String b1 r1 =>
            ((n0 - 0xC0) * 0x40 + continuation b1)%N :: code_points r1
        | _ => [bad_code_point]
        end
      else if (n0 <? 0xF0)%N then
        match r0 with
        | String b1 (String b2 r2) =>
            ((n0 - 0xE0) * 0x1000 + continuation b1 * 0x40
             + continuation b2)%N :: code_points r2
        | _ => [bad_code_point]
        end
      else
        match r0 with
        | String b1 (String b2 (String b3 r3)) =>
            ((n0 - 0xF0) * 0x40000 + continuation b1 * 0x1000
             + continuation b2 * 0x40 + continuation b3)%N :: code_points r3
        | _ => [bad_code_point]
        end
  end.

(** The non-ASCII white space of Unicode 14.0. *)
Definition unicode_spaces : list N :=
  [0x85; 0xA0; 0x1680; 0x2000; 0x2001; 0x2002; 0x2003; 0x2004; 0x2005;
   0x2006; 0x2007; 0x2008; 0x2009; 0x200A; 0x2028; 0x2029; 0x202F; 0x205F;
   0x3000]%N.

(** The digit zero of every non-ASCII run of decimal digits of Unicode
    14.0; the digits 1 to 9 follow each one. *)
Definition unicode_zeros : list N :=
  [0x660; 0x6F0; 0x7C0; 0x966; 0x9E6; 0xA66; 0xAE6; 0xB66; 0xBE6; 0xC66;
   0xCE6; 0xD66; 0xDE6; 0xE50; 0xED0; 0xF20; 0x1040; 0x1090; 0x17E0;
   0x1810; 0x1946; 0x19D0; 0x1A80; 0x1A90; 0x1B50; 0x1BB0; 0x1C40; 0x1C50;
   0xA620; 0xA8D0; 0xA900; 0xA9D0; 0xA9F0; 0xAA50; 0xABF0; 0xFF10;
   0x104A0; 0x10D30; 0x11066; 0x110F0; 0x11136; 0x111D0; 0x112F0; 0x11450;
   0x114D0; 0x11650; 0x116C0; 0x11730; 0x118E0; 0x11950; 0x11C50; 0x11D50;
   0x11DA0; 0x16A60; 0x16AC0; 0x16B50; 0x1D7CE; 0x1D7D8; 0x1D7E2; 0x1D7EC;
   0x1D7F6; 0x1E140; 0x1E2F0; 0x1E950; 0x1FBF0]%N.

Definition unicode_space (cp : N) : bool := bool_decide (cp ∈ unicode_spaces).

Definition unicode_digit (cp : N) : option N :=
  match List.find (fun z => (z <=? cp)%N && (cp <? z + 10)%N) unicode_zeros with
  | Some z => Some (cp - z)%N
  | None => None
  end.

(** The rewriting of a string that has a non-ASCII character: characters
    below 127 stay, white space becomes a space, a decimal digit becomes
    its ASCII digit, and the first other character becomes ['?'] and ends
    the string. *)
Fixpoint transform (cps : list N) : string :=
  match cps with
  | [] => EmptyString
  | cp :: rest =>
      if (cp <? 127)%N then String (ascii_of_N cp) (transform rest)
      else if unicode_space cp then String " " (transform rest)
      else match unicode_digit cp with
           | Some d => String (ascii_of_N (48 + d)) (transform rest)
           | None => String "?" EmptyString
           end
  end.

Definition to_ascii (s : string) : string :=
  if is_ascii s then s else transform (code_points s).

Fixpoint skip_spaces (s : string) : string :=
  match s with
  | String c s' => if is_space c then skip_spaces s' else s
  | EmptyString => s
  end.

(** The digits of a literal after the first one: [(_? digit)*].  [acc] is
    the value and [n] the number of digits read so far.  Returns the value,
    the number of digits and the unread rest, [None] when an underscore is
    not followed by a digit. *)
Fixpoint scan_digits (acc : Z) (n : nat) (s : string)
  : option (Z * nat * string) :=
  match s with
  | String c s' =>
      if is_digit c then scan_digits (10 * acc + digit_val c) (S n) s'
      else if Ascii.eqb c "_" then
        match s' with
        | String d s'' =>
            if is_digit d then scan_digits (10 * acc + digit_val d) (S n) s''
            else None
        | EmptyString => None
        end
      else Some (acc, n, s)
  | EmptyString => Some (acc, n, s)
  end.

(** [sys.get_int_max_str_digits()] *)
Definition max_str_digits : nat := 4300.

(** [int(s, 10)] on an ASCII string: white space, an optional sign, digits
    with single underscores between them, white space; at most
    [max_str_digits] digits. *)
Definition int_of_ascii (s : string) : result Z :=
  let s1 := skip_spaces s in
  let '(sign, s2) :=
    match s1 with
    | String c r =>
        if Ascii.eqb c "+" then (1, r)
        else if Ascii.eqb c "-" then (-1, r)
        else (1, s1)
    | EmptyString => (1, s1)
    end in
  match s2 with
  | String c r =>
      if is_digit c then
        match scan_digits (digit_val c) 1 r with
        | Some (z, n, rest) =>
            match skip_spaces rest with
            | EmptyString =>
                if (n <=? max_str_digits)%nat then Ok (sign * z)
                else Raise ValueError
            | String _ _ => Raise ValueError
            end
        | None => Raise ValueError
        end
      else Raise ValueError
  | EmptyString => Raise ValueError
  end.

(** [int(s)] for a [str]. *)
Definition int_of_str (s : string) : result Z := int_of_ascii (to_ascii s).

(** [int(v)] *)
Definition int (v : pyval) : result Z :=
  match v with
  | PyNone => Raise TypeError
  | PyInt z => Ok z
  | PyStr s => int_of_str s
  | PyOther o => obj_int o
  end.

(** [s.split(sep)] for a one-character separator: never empty. *)
Fixpoint split (sep : ascii) (s : string) : list string :=
  match s with
  | EmptyString => [EmptyString]
  | String c s' =>
      if Ascii.eqb c sep then EmptyString :: split sep s'
      else match split sep s' with
           | x :: xs => String c x :: xs
           | [] => [String c EmptyString]
           end
  end.

(** [l[i]] for [i >= 0] *)
Definition index {A} (l : list A) (i : nat) : result A :=
  match l !! i with
  | Some x => Ok x
  | None => Raise IndexError
  end.

(** [re.sub("[^0-9]", "", s)]: every character outside the class 0-9 is
    replaced by the empty string. *)
Fixpoint re_sub_non_digit (repl : string) (s : string) : string :=
  match s with
  | EmptyString => EmptyString
  | String c s' =>
      if is_digit c then String c (re_sub_non_digit repl s')
      else repl +:+ re_sub_non_digit repl s'
  end.

(** [x in l] on a list *)
Definition contains (x : string) (l : list string) : bool :=
  bool_decide (x ∈ l).

(** [l.remove(x)]: drops the first occurrence, [ValueError] when there is
    none. *)
Fixpoint remove (x : string) (l : list string) : result (list string) :=
  match l with
  | [] => Raise ValueError
  | y :: l' =>
      if decide (y = x) then Ok l'
      else match remove x l' with
           | Ok r => Ok (y :: r)
           | Raise e => Raise e
           end
  end.

(** [range(start, stop, step)], as the list of its elements. *)
Definition range (start stop step : Z) : result (list Z) :=
  if step =? 0 then Raise ValueError
  else
    let len :=
      if 0 <? step
      then (if start <? stop then (stop - start - 1) / step + 1 else 0)
      else (if stop <? start then (start - stop - 1) / (- step) + 1 else 0) in
    Ok (map (fun k => start + Z.of_nat k * step) (seq 0 (Z.to_nat len))).

(** [l[lo:hi]]: negative bounds count from the end, all bounds are
    clamped to the list. *)
Definition slice {A} (l : list A) (lo hi : Z) : list A :=
  let len := Z.of_nat (length l) in
  let clamp i := if i <? 0 then Z.max 0 (i + len) else Z.min i len in
  take (Z.to_nat (clamp hi - clamp lo)) (drop (Z.to_nat (clamp lo)) l).

End Py.

(** ** price_conversion *)

Definition price_conversion (price : pyval) : result string :=
  match price with
  | PyStr s =>
      match Py.index (Py.split "." s) 0 with
      | Ok head => Ok (Py.re_sub_non_digit "" head)
      | Raise e => Raise e
      end
  | _ => Raise AttributeError
  end.

(** ** divide

    [divide] is a generator; every caller consumes it with [list(...)], and
    that is what is modelled: the list of the chunks, or the exception
    raised while producing them. *)

Definition divide {A} (lst : list A) (n : Z) : result (list (list A)) :=
  match Py.range 0 (Z.of_nat (length lst)) n with
  | Ok starts => Ok (map (fun i => Py.slice lst i (i + n)) starts)
  | Raise e => Raise e
  end.

(** ** Records of the supplier sheet and the updates built from them *)

(** One row of the sheet: the [dict] produced by [to_dict(orient="records")]. *)
Abbreviation watch := (gmap string pyval).

(** [d.get(k)]: [None] when the key is missing. *)
Definition get (d : watch) (k : string) : pyval := default PyNone (d !! k).

Definition Kod : string := "Код".
Definition Kolichestvo : string := "Количество".
Definition Tsena : string := "Цена".

(** [{"offer_id": ..., "stock": ...}] *)
Record stock_update : Type := StockUpdate {
  stock_offer_id : string;
  stock : Z
}.

(** The five-key [dict] built by [create_prices]. *)
Record price_update : Type := PriceUpdate {
  auto_action_enabled : string;
  currency_code : string;
  price_offer_id : string;
  old_price : string;
  price : string
}.

(** ** create_stocks *)

(** Lines 221-227: the stock of a matched row.  The comparisons are on
    [str(...)] of the cell, the conversion is [int(...)] of the cell
    itself. *)
Definition stock_of (quantity : pyval) : result Z :=
  let count := Py.str quantity in
  if decide (count = ">10") then Ok 100
  else if decide (count = "1") then Ok 0
  else Py.int quantity.

(** The first loop (lines 219-229).  [stocks] is the list built so far,
    [offer_ids] the caller's list as it stands.  The outcome comes with the
    list as the loop leaves it, also when an exception escapes. *)
Fixpoint stocks_scan (watch_remnants : list watch) (stocks : list stock_update)
    (offer_ids : list string) : result (list stock_update) * list string :=
  match watch_remnants with
  | [] => (Ok stocks, offer_ids)
  | watch :: rest =>
      if Py.contains (Py.str (get watch Kod)) offer_ids then
        match stock_of (get watch Kolichestvo) with
        | Raise e => (Raise e, offer_ids)
        | Ok stock =>
            let stocks' := stocks ++ [StockUpdate (Py.str (get watch Kod)) stock] in
            match Py.remove (Py.str (get watch Kod)) offer_ids with
            | Raise e => (Raise e, offer_ids)
            | Ok offer_ids' => stocks_scan rest stocks' offer_ids'
            end
        end
      else stocks_scan rest stocks offer_ids
  end.

(** [create_stocks(watch_remnants, offer_ids)]: the outcome and the caller's
    [offer_ids] after the call. *)
Definition create_stocks (watch_remnants : list watch) (offer_ids : list string)
  : result (list stock_update) * list string :=
  match stocks_scan watch_remnants [] offer_ids with
  | (Ok stocks, offer_ids') =>
      (Ok (stocks ++ map (fun offer_id => StockUpdate offer_id 0) offer_ids'),
       offer_ids')
  | (Raise e, offer_ids') => (Raise e, offer_ids')
  end.

(** ** create_prices *)

(** Lines 252-263.  [offer_ids] is only read. *)
Fixpoint prices_scan (watch_remnants : list watch) (prices : list price_update)
    (offer_ids : list string) : result (list price_update) :=
  match watch_remnants with
  | [] => Ok prices
  | watch :: rest =>
      if Py.contains (Py.str (get watch Kod)) offer_ids then
        match price_conversion (get watch Tsena) with
        | Raise e => Raise e
        | Ok p =>
            let price :=
              {| auto_action_enabled := "UNKNOWN";
                 currency_code := "RUB";
                 price_offer_id := Py.str (get watch Kod);
                 old_price := "0";
                 price := p |} in
            prices_scan rest (prices ++ [price]) offer_ids
        end
      else prices_scan rest prices offer_ids
  end.

Definition create_prices (watch_remnants : list watch) (offer_ids : list string)
  : result (list price_update) :=
  prices_scan watch_remnants [] offer_ids.

(** The two orders in which the operations are run on one [offer_ids]
    list: [main] (lines 372-376) builds the stocks first and the prices
    from the same list afterwards. *)
Definition stocks_then_prices (watch_remnants : list watch) (offer_ids : list string)
  : result (list stock_update) * result (list price_update) :=
  let '(stocks, offer_ids') := create_stocks watch_remnants offer_ids in
  (stocks, create_prices watch_remnants offer_ids').

Definition prices_then_stocks (watch_remnants : list watch) (offer_ids : list string)
  : result (list price_update) * result (list stock_update) :=
  let prices := create_prices watch_remnants offer_ids in
  (prices, fst (create_stocks watch_remnants offer_ids)).

(** ** get_offer_ids *)

Record product : Type := Product {
  product_id : Z;
  offer_id : string
}.

(** The ["result"] object of one listing response. *)
Record product_page : Type := ProductPage {
  items : list product;
  total : Z;
  last_id : string
}.

Section Enumerator.

(** [get_product_list], with the credentials fixed: the answer to request
    number [k] (counted from 0) made with a given [last_id], or the
    exception of [raise_for_status]. *)
Variable get_product_list : nat -> string -> result product_page.

(** The [while True] loop of lines 80-86 with a bound on the number of
    requests: [None] when the bound is reached before the loop breaks.
    [cursor] is the variable [last_id], [calls] the number of requests
    already made. *)
Fixpoint offer_ids_loop (fuel calls : nat) (cursor : string)
    (product_list : list product) : option (result (list product) * nat) :=
  match fuel with
  | O => None
  | S fuel' =>
      match get_product_list calls cursor with
      | Raise e => Some (Raise e, S calls)
      | Ok some_prod =>
          let product_list' := product_list ++ items some_prod in
          if total some_prod =? Z.of_nat (length product_list')
          then Some (Ok product_list', S calls)
          else offer_ids_loop fuel' (S calls) (last_id some_prod) product_list'
      end
  end.

(** [get_offer_ids]: the offer ids and the number of requests made. *)
Definition get_offer_ids (fuel : nat) : option (result (list string) * nat) :=
  match offer_ids_loop fuel 0 "" [] with
  | Some (Ok product_list, calls) => Some (Ok (map offer_id product_list), calls)
  | Some (Raise e, calls) => Some (Raise e, calls)
  | None => None
  end.

(** [served k c ps]: from request [k] with cursor [c] on, the collaborator
    answers with the pages [ps], each cursor being the one the previous
    page gave. *)
Fixpoint served (k : nat) (c : string) (ps : list product_page) : Prop :=
  match ps with
  | [] => True
  | p :: ps' => get_product_list k c = Ok p /\ served (S k) (last_id p) ps'
  end.

End Enumerator.

(** All items of a run of pages, in order. *)
Definition all_items (ps : list product_page) : list product :=
  concat (map items ps).

(** The loop's test after the last page of [ps] has been appended. *)
Definition reached (acc : list product) (ps : list product_page) : Prop :=
  match last ps with
  | Some p => total p = Z.of_nat (length (acc ++ all_items ps))
  | None => False
  end.

(** The loop stops after the pages [ps] and not before: its test holds
    after the last page and after no earlier one. *)
Definition stops_at (acc : list product) (ps : list product_page) : Prop :=
  reached acc ps
  /\ forall ps1 ps2, ps = ps1 ++ ps2 -> ps1 <> [] -> ps2 <> [] -> ~ reached acc ps1.

(** A listing collaborator for a catalogue of 2250 products served in pages
    of 1000, 1000 and 250 items, each reporting [total = 2250].  Product
    number [i] has the offer id [str(i)].  A request that does not carry the
    cursor of the previous page is refused. *)
Definition mock_items (from count : nat) : list product :=
  map (fun i => Product (Z.of_nat i) (Py.str (PyInt (Z.of_nat i)))) (seq from count).

Definition mock_listing (k : nat) (cursor : string) : result product_page :=
  match k with
  | 0%nat =>
      if decide (cursor = "") then Ok (ProductPage (mock_items 0 1000) 2250 "p1")
      else Raise HTTPError
  | 1%nat =>
      if decide (cursor = "p1") then Ok (ProductPage (mock_items 1000 1000) 2250 "p2")
      else Raise HTTPError
  | 2%nat =>
      if decide (cursor = "p2") then Ok (ProductPage (mock_items 2000 250) 2250 "")
      else Raise HTTPError
  | _ => Raise HTTPError
  end.

(** A collaborator that reports one product and never serves it: the
    accumulated count stays at 0 and never reaches the total. *)
Definition stalled_listing (k : nat) (cursor : string) : result product_page :=
  Ok (ProductPage [] 1 "").

(** ** Vocabulary for the statements *)

(** The stringified code of a row, as both scans compute it. *)
Definition code_of (w : watch) : string := Py.str (get w Kod).

(** The offer ids still unmatched once the rows [ws] have been scanned by
    the stock loop: every row whose code is in the list takes the first
    occurrence of that code out.  No cell other than the code is looked
    at. *)
Fixpoint remaining (ws : list watch) (offer_ids : list string) : list string :=
  match ws with
  | [] => offer_ids
  | w :: rest =>
      if Py.contains (code_of w) offer_ids then
        match Py.remove (code_of w) offer_ids with
        | Ok offer_ids' => remaining rest offer_ids'
        | Raise _ => remaining rest offer_ids
        end
      else remaining rest offer_ids
  end.

(** The price entry a row gives when it is matched. *)
Definition price_entry_of (w : watch) : result price_update :=
  match price_conversion (get w Tsena) with
  | Ok p => Ok (PriceUpdate "UNKNOWN" "RUB" (code_of w) "0" p)
  | Raise e => Raise e
  end.

(** The stock entry a row gives when it is matched. *)
Definition stock_entry_of (w : watch) : result stock_update :=
  match stock_of (get w Kolichestvo) with
  | Ok v => Ok (StockUpdate (code_of w) v)
  | Raise e => Raise e
  end.

(** The outcomes of a sequence of steps: all the values, or the first
    exception. *)
Fixpoint collect {A} (rs : list (result A)) : result (list A) :=
  match rs with
  | [] => Ok []
  | Ok a :: rs' =>
      match collect rs' with
      | Ok l => Ok (a :: l)
      | Raise e => Raise e
      end
  | Raise e :: _ => Raise e
  end.

(** A row of the sheet with the three columns the code reads. *)
Definition row (code quantity price : pyval) : watch :=
  <[Kod := code]> (<[Kolichestvo := quantity]> (<[Tsena := price]> ∅)).

(** The specification's wording of the price parser. *)
Module PriceSpec.

(** The part of the input before the first separator ... *)
Fixpoint before_first (sep : ascii) (s : string) : string :=
  match s with
  | EmptyString => EmptyString
  | String c s' =>
      if Ascii.eqb c sep then EmptyString else String c (before_first sep s')
  end.

(** ... with every character that is not one of 0..9 deleted. *)
Fixpoint keep_digits (s : string) : string :=
  match s with
  | EmptyString => EmptyString
  | String c s' =>
      if bool_decide (c ∈ ["0"; "1"; "2"; "3"; "4"; "5"; "6"; "7"; "8"; "9"]%char)
      then String c (keep_digits s')
      else keep_digits s'
  end.

Definition parse_price (raw : string) : string :=
  keep_digits (before_first "." raw).

End PriceSpec.

(** The value of a run of decimal digits read after [acc]. *)
Fixpoint uint_value (acc : Z) (d : Decimal.uint) : Z :=
  match d with
  | Decimal.Nil => acc
  | Decimal.D0 d => uint_value (10 * acc + 0) d
  | Decimal.D1 d => uint_value (10 * acc + 1) d
  | Decimal.D2 d => uint_value (10 * acc + 2) d
  | Decimal.D3 d => uint_value (10 * acc + 3) d
  | Decimal.D4 d => uint_value (10 * acc + 4) d
  | Decimal.D5 d => uint_value (10 * acc + 5) d
  | Decimal.D6 d => uint_value (10 * acc + 6) d
  | Decimal.D7 d => uint_value (10 * acc + 7) d
  | Decimal.D8 d => uint_value (10 * acc + 8) d
  | Decimal.D9 d => uint_value (10 * acc + 9) d
  end.

(** The number of chunks [range(0, len, n)] gives for [n > 0]. *)
Definition chunk_count (len : nat) (n : Z) : nat :=
  Z.to_nat (if 0 <? Z.of_nat len then (Z.of_nat len - 0 - 1) / n + 1 else 0).

(** ** The drivers: upload_stocks, upload_prices, main

    The collaborators are parameters.  [update_stocks k batch] and
    [update_price k batch] are the outcomes of request number [k] (from 0)
    of [update_stocks] and [update_price]: [Ok] or the exception of
    [raise_for_status] or of the transport ([HTTPError] stands for any of
    them); the JSON they return is dropped by every caller.
    [download_stock] is the outcome of the download.  The credentials are
    fixed.  [upload_stocks] and [upload_prices] are coroutines without an
    [await]; they are modelled run to completion. *)

(** [for batch in batches: update(batch)]: the outcome and every request
    made, in order, the one that raised included. *)
Fixpoint submit_each {A} (update : nat -> list A -> result unit) (k : nat)
    (batches calls : list (list A)) : result unit * list (list A) :=
  match batches with
  | [] => (Ok tt, calls)
  | batch :: rest =>
      match update k batch with
      | Ok _ => submit_each update (S k) rest (calls ++ [batch])
      | Raise e => (Raise e, calls ++ [batch])
      end
  end.

(** What [main] leaves behind: the requests made and the exception its
    [except] clauses caught, if any. *)
Record main_trace : Type := MainTrace {
  stock_calls : list (list stock_update);
  price_calls : list (list price_update);
  caught : option exn
}.

Section Drivers.

Variable get_product_list : nat -> string -> result product_page.
Variable update_stocks : nat -> list stock_update -> result unit.
Variable update_price : nat -> list price_update -> result unit.
Variable download_stock : result (list watch).

(** Lines 333-337: the returned price list, with the requests made.
    [None] when the listing loop exceeds [fuel] requests. *)
Definition upload_prices (fuel : nat) (watch_remnants : list watch)
  : option (result (list price_update) * list (list price_update)) :=
  match get_offer_ids get_product_list fuel with
  | None => None
  | Some (Raise e, _) => Some (Raise e, [])
  | Some (Ok offer_ids, _) =>
      match create_prices watch_remnants offer_ids with
      | Raise e => Some (Raise e, [])
      | Ok prices =>
          match divide prices 1000 with
          | Raise e => Some (Raise e, [])
          | Ok chunks =>
              match submit_each update_price 0 chunks [] with
              | (Ok _, calls) => Some (Ok prices, calls)
              | (Raise e, calls) => Some (Raise e, calls)
              end
          end
      end
  end.

(** Lines 356-361: the pair [(not_empty, stocks)], with the requests
    made. *)
Definition upload_stocks (fuel : nat) (watch_remnants : list watch)
  : option (result (list stock_update * list stock_update)
            * list (list stock_update)) :=
  match get_offer_ids get_product_list fuel with
  | None => None
  | Some (Raise e, _) => Some (Raise e, [])
  | Some (Ok offer_ids, _) =>
      match create_stocks watch_remnants offer_ids with
      | (Raise e, _) => Some (Raise e, [])
      | (Ok stocks, _) =>
          match divide stocks 100 with
          | Raise e => Some (Raise e, [])
          | Ok chunks =>
              match submit_each update_stocks 0 chunks [] with
              | (Ok _, calls) =>
                  let not_empty := filter (fun u => stock u <> 0) stocks in
                  Some (Ok (not_empty, stocks), calls)
              | (Raise e, calls) => Some (Raise e, calls)
              end
          end
      end
  end.

(** Lines 368-384.  One [offer_ids] list serves both halves: the prices
    are built from the list as [create_stocks] has left it.  Every
    exception of the [try] block is caught. *)
Definition main (fuel : nat) : option main_trace :=
  match get_offer_ids get_product_list fuel with
  | None => None
  | Some (Raise e, _) => Some (MainTrace [] [] (Some e))
  | Some (Ok offer_ids, _) =>
      match download_stock with
      | Raise e => Some (MainTrace [] [] (Some e))
      | Ok watch_remnants =>
          match create_stocks watch_remnants offer_ids with
          | (Raise e, _) => Some (MainTrace [] [] (Some e))
          | (Ok stocks, offer_ids') =>
              match divide stocks 100 with
              | Raise e => Some (MainTrace [] [] (Some e))
              | Ok stock_chunks =>
                  match submit_each update_stocks 0 stock_chunks [] with
                  | (Raise e, calls) => Some (MainTrace calls [] (Some e))
                  | (Ok _, calls) =>
                      match create_prices watch_remnants offer_ids' with
                      | Raise e => Some (MainTrace calls [] (Some e))
                      | Ok prices =>
                          match divide prices 900 with
                          | Raise e => Some (MainTrace calls [] (Some e))
                          | Ok price_chunks =>
                              match submit_each update_price 0 price_chunks [] with
                              | (Ok _, pcalls) => Some (MainTrace calls pcalls None)
                              | (Raise e, pcalls) =>
                                  Some (MainTrace calls pcalls (Some e))
                              end
                          end
                      end
                  end
              end
          end
      end
  end.

End Drivers.

(** ** More vocabulary *)

(** The rows that are the first with their code, given the codes [seen]
    before. *)
Fixpoint first_rows (seen : list string) (ws : list watch) : list watch :=
  match ws with
  | [] => []
  | w :: rest =>
      if decide (code_of w ∈ seen) then first_rows seen rest
      else w :: first_rows (code_of w :: seen) rest
  end.

(** The cursor the loop holds after the pages [ps], having started with
    [c]. *)
Definition cursor_after (c : string) (ps : list product_page) : string :=
  match last ps with
  | Some p => last_id p
  | None => c
  end.

(** The count test of the loop holds after no page of [ps]. *)
Definition never_reached (acc : list product) (ps : list product_page) : Prop :=
  forall ps1 ps2, ps = ps1 ++ ps2 -> ps1 <> [] -> ~ reached acc ps1.

(** A collaborator that accepts every batch. *)
Definition accept_all {A} (k : nat) (batch : list A) : result unit := Ok tt.

(** A collaborator that serves one page short of its total and then
    refuses the next request. *)
Definition failing_listing (k : nat) (cursor : string) : result product_page :=
  match k with
  | 0%nat => Ok (ProductPage [Product 1 "a"] 5 "x")
  | _ => Raise HTTPError
  end.

(** A collaborator that accepts the first [j] requests and refuses the
    others. *)
Definition accept_first {A} (j : nat) (k : nat) (batch : list A) : result unit :=
  if (k <? j)%nat then Ok tt else Raise HTTPError.

(** A one-page catalogue of the two offers ["A"] and ["B"]. *)
Definition two_offers (k : nat) (cursor : string) : result product_page :=
  Ok (ProductPage [Product 1 "A"; Product 2 "B"] 2 "").

(** ** Integer literals, as the language reference describes them *)

Module IntLiteral.

Definition space_chars : list ascii :=
  [" "; "009"; "010"; "011"; "012"; "013"]%char.

Definition digit_chars : list ascii :=
  ["0"; "1"; "2"; "3"; "4"; "5"; "6"; "7"; "8"; "9"]%char.

(** A run of white space. *)
Fixpoint spaces (s : string) : Prop :=
  match s with
  | EmptyString => True
  | String c s' => c ∈ space_chars /\ spaces s'
  end.

(** A run of decimal digits, possibly empty. *)
Fixpoint digits (s : string) : Prop :=
  match s with
  | EmptyString => True
  | String c s' => c ∈ digit_chars /\ digits s'
  end.

(** A group: one digit or more. *)
Definition group (g : string) : Prop := g <> EmptyString /\ digits g.

Inductive sign : Type := Plus | Minus | NoSign.

Definition sign_string (sg : sign) : string :=
  match sg with Plus => "+" | Minus => "-" | NoSign => "" end.

Definition sign_value (sg : sign) : Z :=
  match sg with Plus => 1 | Minus => -1 | NoSign => 1 end.

(** The value of a run of digits read in base 10 after the value [acc]. *)
Fixpoint decimal_value (acc : Z) (s : string) : Z :=
  match s with
  | EmptyString => acc
  | String c s' => decimal_value (10 * acc + (Z.of_nat (nat_of_ascii c) - 48)) s'
  end.

(** The groups after the first, each behind one underscore. *)
Fixpoint tail_groups (gs : list string) : string :=
  match gs with
  | [] => EmptyString
  | g :: rest => "_" +:+ g +:+ tail_groups rest
  end.

Fixpoint all_digits (gs : list string) : string :=
  match gs with
  | [] => EmptyString
  | g :: rest => g +:+ all_digits rest
  end.

(** [literal t v]: the ASCII string [t] is an integer literal of value
    [v]: white space, an optional sign, groups of digits separated by
    single underscores, white space; at most 4300 digits in all. *)
Definition literal (t : string) (v : Z) : Prop :=
  exists pre sg g gs post,
    t = pre +:+ sign_string sg +:+ g +:+ tail_groups gs +:+ post
    /\ spaces pre /\ spaces post
    /\ group g /\ Forall group gs
    /\ (String.length (g +:+ all_digits gs) <= 4300)%nat
    /\ v = sign_value sg * decimal_value 0 (g +:+ all_digits gs).

End IntLiteral.

(** Where a scan of digits stops: at the end, or before a character that
    is neither a digit nor an underscore. *)
Definition scan_stop (rest : string) : Prop :=
  match rest with
  | EmptyString => True
  | String c _ => Py.is_digit c = false /\ Ascii.eqb c "_" = false
  end.

(** The part of [int_of_ascii] after the white space and the sign. *)
Definition int_of_digits (sign : Z) (s2 : string) : result Z :=
  match s2 with
  | String c r =>
      if Py.is_digit c then
        match Py.scan_digits (Py.digit_val c) 1 r with
        | Some (z, n, rest) =>
            match Py.skip_spaces rest with
            | EmptyString =>
                if (n <=? Py.max_str_digits)%nat then Ok (sign * z)
                else Raise ValueError
            | String _ _ => Raise ValueError
            end
        | None => Raise ValueError
        end
      else Raise ValueError
  | EmptyString => Raise ValueError
  end.

(** * Properties *)

(** ** Price conversion *)

Lemma is_digit_spec (c : ascii) :
  Py.is_digit c =
  bool_decide (c ∈ ["0"; "1"; "2"; "3"; "4"; "5"; "6"; "7"; "8"; "9"]%char).
Proof.
  destruct c as [[] [] [] [] [] [] [] []]; vm_compute; reflexivity.
Qed.

Lemma split_head (sep : ascii) (s : string) :
  exists tl, Py.split sep s = PriceSpec.before_first sep s :: tl.
Proof.
  induction s as [|c s [tl IH]]; simpl.
  - by exists [].
  - destruct (Ascii.eqb c sep); [by eexists|].
    rewrite IH. by exists tl.
Qed.

Lemma re_sub_keep_digits (s : string) :
  Py.re_sub_non_digit "" s = PriceSpec.keep_digits s.
Proof.
  induction s as [|c s IH]; simpl; [done|].
  rewrite <- is_digit_spec, IH. by destruct (Py.is_digit c).
Qed.

Lemma price_conversion_str (s : string) :
  price_conversion (PyStr s) = Ok (PriceSpec.parse_price s).
Proof.
  unfold price_conversion, PriceSpec.parse_price.
  destruct (split_head "." s) as [tl ->]. simpl.
  by rewrite re_sub_keep_digits.
Qed.

(** C7.  On every string, [price_conversion] returns the part of the input
    before the first ['.'] with every character other than the ASCII
    digits 0-9 deleted; ["5'990.00 руб."] gives ["5990"], ["12."] gives
    ["12"], and ["руб."] gives the empty string, returned as a result and
    not as an error. *)
Theorem price_conversion_spec :
  (forall s : string, price_conversion (PyStr s) = Ok (PriceSpec.parse_price s))
  /\ price_conversion (PyStr "5'990.00 руб.") = Ok "5990"
  /\ price_conversion (PyStr "12.") = Ok "12"
  /\ price_conversion (PyStr "руб.") = Ok "".
Proof.
  split; [exact price_conversion_str|].
  repeat split; reflexivity.
Qed.

(** ** Quantity parsing *)

(** *** Characters *)

Lemma is_space_spec (c : ascii) :
  Py.is_space c = bool_decide (c ∈ IntLiteral.space_chars).
Proof.
  destruct c as [[] [] [] [] [] [] [] []]; vm_compute; reflexivity.
Qed.

Lemma digit_chars_spec (c : ascii) :
  c ∈ IntLiteral.digit_chars <-> Py.is_digit c = true.
Proof.
  rewrite is_digit_spec. symmetry. apply bool_decide_eq_true.
Qed.

Lemma space_chars_spec (c : ascii) :
  c ∈ IntLiteral.space_chars <-> Py.is_space c = true.
Proof.
  rewrite is_space_spec. symmetry. apply bool_decide_eq_true.
Qed.

(** A digit is no white space, no sign and no underscore; white space is
    no digit and no underscore. *)
Lemma digit_char_facts (c : ascii) :
  Py.is_digit c = true ->
  Py.is_space c = false /\ Ascii.eqb c "+" = false /\ Ascii.eqb c "-" = false
  /\ Ascii.eqb c "_" = false.
Proof.
  destruct c as [[] [] [] [] [] [] [] []]; vm_compute; intros H;
    try discriminate H; repeat split.
Qed.

Lemma space_char_facts (c : ascii) :
  Py.is_space c = true -> Py.is_digit c = false /\ Ascii.eqb c "_" = false.
Proof.
  destruct c as [[] [] [] [] [] [] [] []]; vm_compute; intros H;
    try discriminate H; repeat split.
Qed.

Lemma string_app_nil_l (b : string) : EmptyString +:+ b = b.
Proof. reflexivity. Qed.

Lemma string_app_cons (x : ascii) (a b : string) :
  String x a +:+ b = String x (a +:+ b).
Proof. reflexivity. Qed.

(** Push the appends of a goal inwards. *)
Ltac str_simpl :=
  repeat (rewrite string_app_cons || rewrite string_app_nil_l); simpl.

Lemma string_app_assoc (a b c : string) : (a +:+ b) +:+ c = a +:+ b +:+ c.
Proof.
  induction a as [|x a IH]; [reflexivity|].
  change (String x ((a +:+ b) +:+ c) = String x (a +:+ b +:+ c)). by f_equal.
Qed.

Lemma string_app_nil_r (a : string) : a +:+ EmptyString = a.
Proof.
  induction a as [|x a IH]; [reflexivity|].
  change (String x (a +:+ EmptyString) = String x a). by f_equal.
Qed.

Lemma string_length_app (a b : string) :
  String.length (a +:+ b) = (String.length a + String.length b)%nat.
Proof.
  induction a as [|x a IH]; [reflexivity|].
  change (S (String.length (a +:+ b))
          = S (String.length a + String.length b)). by f_equal.
Qed.

(** *** White space *)

Lemma skip_spaces_app (pre r : string) :
  IntLiteral.spaces pre -> Py.skip_spaces (pre +:+ r) = Py.skip_spaces r.
Proof.
  induction pre as [|c pre IH]; str_simpl; [done|]. intros [Hc Hpre].
  apply space_chars_spec in Hc. rewrite Hc. by apply IH.
Qed.

Lemma skip_spaces_spaces (s : string) :
  IntLiteral.spaces s <-> Py.skip_spaces s = EmptyString.
Proof.
  induction s as [|c s IH]; simpl; [done|].
  rewrite space_chars_spec. destruct (Py.is_space c).
  - rewrite <- IH. tauto.
  - split; [by intros [? _]|done].
Qed.

Lemma skip_spaces_split (t : string) :
  exists pre, t = pre +:+ Py.skip_spaces t /\ IntLiteral.spaces pre.
Proof.
  induction t as [|c t (pre & E & Hpre)]; simpl; [by exists EmptyString|].
  destruct (Py.is_space c) eqn:Ec.
  - exists (String c pre). rewrite string_app_cons, <- E. split; [done|].
    split; [by apply space_chars_spec|done].
  - by exists EmptyString.
Qed.

Lemma skip_spaces_head (t : string) (c : ascii) (r : string) :
  Py.skip_spaces t = String c r -> Py.is_space c = false.
Proof.
  induction t as [|x t IH]; simpl; [done|].
  destruct (Py.is_space x) eqn:Ex; [exact IH|]. by intros [= <- <-].
Qed.

(** *** Digits *)

Lemma decimal_value_app (acc : Z) (a b : string) :
  IntLiteral.decimal_value acc (a +:+ b)
  = IntLiteral.decimal_value (IntLiteral.decimal_value acc a) b.
Proof.
  revert acc. induction a as [|x a IH]; intros acc; str_simpl; [done|]. apply IH.
Qed.

Lemma digits_app (a b : string) :
  IntLiteral.digits (a +:+ b) <-> IntLiteral.digits a /\ IntLiteral.digits b.
Proof. induction a as [|x a IH]; str_simpl; [tauto|]. rewrite IH. tauto. Qed.

Lemma scan_digits_stop (acc : Z) (n : nat) (rest : string) :
  scan_stop rest -> Py.scan_digits acc n rest = Some (acc, n, rest).
Proof. destruct rest as [|c r]; simpl; [done|]. by intros [-> ->]. Qed.

Lemma scan_digits_group (g : string) (acc : Z) (n : nat) (r : string) :
  IntLiteral.digits g ->
  Py.scan_digits acc n (g +:+ r)
  = Py.scan_digits (IntLiteral.decimal_value acc g) (n + String.length g) r.
Proof.
  revert acc n. induction g as [|c g IH]; intros acc n; str_simpl.
  - intros _. by rewrite Nat.add_0_r.
  - intros [Hc Hg]. apply digit_chars_spec in Hc. rewrite Hc.
    rewrite (IH _ _ Hg). unfold Py.digit_val. f_equal. lia.
Qed.

Lemma scan_digits_underscore (d : ascii) (r : string) (acc : Z) (n : nat) :
  Py.is_digit d = true ->
  Py.scan_digits acc n (String "_" (String d r))
  = Py.scan_digits (10 * acc + Py.digit_val d) (S n) r.
Proof.
  intros Hd. cbn [Py.scan_digits].
  change (Py.is_digit "_") with false. cbv iota.
  by rewrite Ascii.eqb_refl, Hd.
Qed.

Lemma scan_digits_tail (gs : list string) (acc : Z) (n : nat) (post : string) :
  Forall IntLiteral.group gs -> scan_stop post ->
  Py.scan_digits acc n (IntLiteral.tail_groups gs +:+ post)
  = Some (IntLiteral.decimal_value acc (IntLiteral.all_digits gs),
          (n + String.length (IntLiteral.all_digits gs))%nat, post).
Proof.
  intros Hgs Hpost. revert acc n.
  induction Hgs as [|g gs [Hne Hg] _ IH]; intros acc n.
  - simpl. rewrite Nat.add_0_r. by apply scan_digits_stop.
  - destruct g as [|d g]; [done|]. destruct Hg as [Hd Hg].
    apply digit_chars_spec in Hd.
    cbn [IntLiteral.tail_groups IntLiteral.all_digits].
    rewrite !string_app_cons, !string_app_nil_l, !string_app_cons.
    rewrite (scan_digits_underscore d _ _ _ Hd), string_app_assoc.
    rewrite (scan_digits_group g _ _ _ Hg), IH.
    cbn [IntLiteral.decimal_value String.length].
    rewrite decimal_value_app, string_length_app. unfold Py.digit_val.
    do 3 f_equal. lia.
Qed.

Lemma scan_digits_inv (k : nat) :
  forall (s : string) (acc : Z) (n : nat) (z : Z) (m : nat) (rest : string),
    (String.length s <= k)%nat ->
    Py.scan_digits acc n s = Some (z, m, rest) ->
    exists g gs,
      s = g +:+ IntLiteral.tail_groups gs +:+ rest
      /\ IntLiteral.digits g /\ Forall IntLiteral.group gs
      /\ z = IntLiteral.decimal_value acc (g +:+ IntLiteral.all_digits gs)
      /\ m = (n + String.length (g +:+ IntLiteral.all_digits gs))%nat
      /\ scan_stop rest.
Proof.
  induction k as [|k IH]; intros s acc n z m rest Hlen H.
  - destruct s; [|simpl in Hlen; lia]. simpl in H. injection H as <- <- <-.
    exists EmptyString, []. simpl. by rewrite Nat.add_0_r.
  - destruct s as [|c s]; simpl in H.
    { injection H as <- <- <-. exists EmptyString, []. simpl.
      by rewrite Nat.add_0_r. }
    simpl in Hlen. destruct (Py.is_digit c) eqn:Ec.
    + apply IH in H as (g & gs & -> & Hg & Hgs & -> & -> & Hstop); [|lia].
      exists (String c g), gs. simpl. split; [done|].
      split; [split; [by apply digit_chars_spec|done]|].
      split; [done|]. split; [done|]. split; [lia|done].
    + destruct (Ascii.eqb_spec c "_") as [->|Hne].
      * destruct s as [|d s]; [done|].
        destruct (Py.is_digit d) eqn:Ed; [|done]. simpl in Hlen.
        apply IH in H as (g & gs & -> & Hg & Hgs & -> & -> & Hstop); [|lia].
        exists EmptyString, (String d g :: gs).
        cbn [IntLiteral.tail_groups IntLiteral.all_digits].
        rewrite !string_app_nil_l, !string_app_cons, !string_app_nil_l.
        rewrite string_app_cons, string_app_assoc.
        split; [done|]. split; [done|]. split.
        { constructor; [|done]. split; [done|].
          split; [by apply digit_chars_spec|done]. }
        split; [done|]. split; [simpl; lia|done].
      * injection H as <- <- <-. exists EmptyString, []. simpl.
        rewrite Nat.add_0_r. repeat split; try done.
        by apply Ascii.eqb_neq.
Qed.

(** *** The parser reads exactly the integer literals *)

Lemma int_of_ascii_unfold (t : string) :
  Py.int_of_ascii t =
  match Py.skip_spaces t with
  | String c r =>
      if Ascii.eqb c "+" then int_of_digits 1 r
      else if Ascii.eqb c "-" then int_of_digits (-1) r
      else int_of_digits 1 (String c r)
  | EmptyString => Raise ValueError
  end.
Proof.
  unfold Py.int_of_ascii, int_of_digits.
  destruct (Py.skip_spaces t) as [|c r]; [done|].
  destruct (Ascii.eqb c "+"); [done|]. by destruct (Ascii.eqb c "-").
Qed.

Lemma spaces_scan_stop (post : string) : IntLiteral.spaces post -> scan_stop post.
Proof.
  destruct post as [|c r]; simpl; [done|]. intros [Hc _].
  apply space_chars_spec in Hc. by apply space_char_facts.
Qed.

Lemma int_of_digits_literal (sign : Z) (g : string) (gs : list string)
    (post : string) :
  IntLiteral.group g -> Forall IntLiteral.group gs -> IntLiteral.spaces post ->
  (String.length (g +:+ IntLiteral.all_digits gs) <= 4300)%nat ->
  int_of_digits sign (g +:+ IntLiteral.tail_groups gs +:+ post)
  = Ok (sign * IntLiteral.decimal_value 0 (g +:+ IntLiteral.all_digits gs)).
Proof.
  intros [Hne Hg] Hgs Hpost Hlen.
  destruct g as [|c g]; [done|]. destruct Hg as [Hc Hg].
  apply digit_chars_spec in Hc.
  rewrite !string_app_cons. unfold int_of_digits. rewrite Hc.
  rewrite (scan_digits_group g _ _ _ Hg).
  rewrite (scan_digits_tail gs _ _ post Hgs (spaces_scan_stop _ Hpost)).
  rewrite (proj1 (skip_spaces_spaces post) Hpost).
  rewrite string_app_cons in Hlen. cbn [String.length] in Hlen.
  rewrite string_length_app in Hlen.
  replace (_ <=? Py.max_str_digits)%nat with true
    by (symmetry; apply Nat.leb_le; unfold Py.max_str_digits; lia).
  cbn [IntLiteral.decimal_value]. rewrite decimal_value_app.
  reflexivity.
Qed.

Lemma int_of_digits_inv (sign : Z) (s2 : string) (v : Z) :
  int_of_digits sign s2 = Ok v ->
  exists g gs post,
    s2 = g +:+ IntLiteral.tail_groups gs +:+ post
    /\ IntLiteral.group g /\ Forall IntLiteral.group gs /\ IntLiteral.spaces post
    /\ (String.length (g +:+ IntLiteral.all_digits gs) <= 4300)%nat
    /\ v = sign * IntLiteral.decimal_value 0 (g +:+ IntLiteral.all_digits gs).
Proof.
  unfold int_of_digits. destruct s2 as [|c r]; [done|].
  destruct (Py.is_digit c) eqn:Ec; [|done].
  destruct (Py.scan_digits (Py.digit_val c) 1 r) as [[[z n] rest]|] eqn:Es; [|done].
  destruct (Py.skip_spaces rest) eqn:Er; [|done].
  destruct (n <=? Py.max_str_digits)%nat eqn:En; [|done].
  intros [= <-].
  apply (scan_digits_inv (String.length r)) in Es
    as (g & gs & -> & Hg & Hgs & -> & -> & _); [|lia].
  exists (String c g), gs, rest. rewrite !string_app_cons.
  split; [done|]. split; [split; [done|split; [by apply digit_chars_spec|done]]|].
  split; [done|]. split; [by apply skip_spaces_spaces|].
  apply Nat.leb_le in En. unfold Py.max_str_digits in En.
  cbn [String.length IntLiteral.decimal_value].
  split; [lia|]. reflexivity.
Qed.

Lemma int_of_digits_raise (sign : Z) (s2 : string) (e : exn) :
  int_of_digits sign s2 = Raise e -> e = ValueError.
Proof.
  unfold int_of_digits. intros H.
  repeat match type of H with
         | context [match ?x with _ => _ end] => destruct x
         end; congruence.
Qed.

(** [int] on an ASCII string returns [v] exactly when the string is an
    integer literal of value [v]. *)
Lemma int_of_ascii_literal (t : string) (v : Z) :
  Py.int_of_ascii t = Ok v <-> IntLiteral.literal t v.
Proof.
  rewrite int_of_ascii_unfold. split.
  - destruct (skip_spaces_split t) as (pre & Et & Hpre).
    destruct (Py.skip_spaces t) as [|c r] eqn:Es; [done|].
    destruct (Ascii.eqb_spec c "+") as [->|Hp];
      [|destruct (Ascii.eqb_spec c "-") as [->|Hm]]; intros H;
      apply int_of_digits_inv in H
        as (g & gs & post & E & Hg & Hgs & Hpost & Hlen & ->).
    + exists pre, IntLiteral.Plus, g, gs, post. subst r.
      by rewrite Et.
    + exists pre, IntLiteral.Minus, g, gs, post. subst r.
      by rewrite Et.
    + exists pre, IntLiteral.NoSign, g, gs, post.
      cbn [IntLiteral.sign_string]. rewrite string_app_nil_l, <- E.
      by rewrite Et.
  - intros (pre & sg & g & gs & post & -> & Hpre & Hpost & Hg & Hgs & Hlen & ->).
    rewrite (skip_spaces_app pre _ Hpre).
    destruct sg; cbn [IntLiteral.sign_string IntLiteral.sign_value].
    + rewrite string_app_cons, string_app_nil_l. cbn [Py.skip_spaces].
      change (Py.is_space "+") with false. cbv iota.
      rewrite Ascii.eqb_refl. by apply int_of_digits_literal.
    + rewrite string_app_cons, string_app_nil_l. cbn [Py.skip_spaces].
      change (Py.is_space "-") with false. cbv iota.
      change (Ascii.eqb "-" "+") with false. cbv iota.
      rewrite Ascii.eqb_refl. by apply int_of_digits_literal.
    + rewrite string_app_nil_l.
      pose proof (int_of_digits_literal 1 g gs post Hg Hgs Hpost Hlen) as Hd.
      destruct Hg as [Hne Hg]. destruct g as [|c g]; [done|].
      destruct Hg as [Hc _]. apply digit_chars_spec in Hc.
      destruct (digit_char_facts c Hc) as (Hs & Hp & Hm & _).
      rewrite string_app_cons in *. cbn [Py.skip_spaces].
      by rewrite Hs, Hp, Hm.
Qed.

Lemma int_of_ascii_raise (t : string) (e : exn) :
  Py.int_of_ascii t = Raise e -> e = ValueError.
Proof.
  rewrite int_of_ascii_unfold. intros H.
  destruct (Py.skip_spaces t) as [|c r]; [congruence|].
  destruct (Ascii.eqb c "+"); [by apply int_of_digits_raise in H|].
  destruct (Ascii.eqb c "-"); by apply int_of_digits_raise in H.
Qed.

Lemma to_ascii_ascii (s : string) : Py.is_ascii s = true -> Py.to_ascii s = s.
Proof. unfold Py.to_ascii. by intros ->. Qed.

(** [int(s)] of a string returns [v] exactly when the string, rewritten to
    ASCII, is an integer literal of value [v]; otherwise it raises
    [ValueError]. *)
Lemma int_of_str_literal (s : string) :
  (forall v, Py.int_of_str s = Ok v <-> IntLiteral.literal (Py.to_ascii s) v)
  /\ ((forall v, ~ IntLiteral.literal (Py.to_ascii s) v) ->
      Py.int_of_str s = Raise ValueError)
  /\ (forall e, Py.int_of_str s = Raise e -> e = ValueError).
Proof.
  unfold Py.int_of_str. split; [intros v; apply int_of_ascii_literal|]. split.
  - intros Hno. destruct (Py.int_of_ascii (Py.to_ascii s)) as [v|e] eqn:E.
    + by apply int_of_ascii_literal, Hno in E.
    + by apply int_of_ascii_raise in E as ->.
  - intros e. apply int_of_ascii_raise.
Qed.

(** *** [str] of an integer *)

Lemma to_int_not_nil (z : Z) :
  Z.to_int z <> Decimal.Pos Decimal.Nil /\ Z.to_int z <> Decimal.Neg Decimal.Nil.
Proof.
  destruct z as [|p|p]; simpl; split; try done;
    intros [= H]; by apply DecimalPos.Unsigned.to_uint_nonnil in H.
Qed.

(** [str] is injective on integers. *)
Lemma str_int_inj (a b : Z) : Py.str (PyInt a) = Py.str (PyInt b) -> a = b.
Proof.
  simpl. intros H. apply (f_equal NilZero.int_of_string) in H.
  destruct (to_int_not_nil a) as [Ha1 Ha2].
  destruct (to_int_not_nil b) as [Hb1 Hb2].
  rewrite !NilZero.isi in H by done. injection H as H.
  by apply DecimalZ.to_int_inj.
Qed.

Lemma str_int_not_gt10 (z : Z) : Py.str (PyInt z) <> ">10".
Proof.
  simpl. intros H. apply (f_equal NilZero.int_of_string) in H.
  destruct (to_int_not_nil z) as [H1 H2].
  rewrite NilZero.isi in H by done. discriminate H.
Qed.

Lemma str_int_1 (z : Z) : Py.str (PyInt z) = "1" -> z = 1.
Proof. intros H. by apply (str_int_inj z 1). Qed.

Lemma digits_string_of_uint (d : Decimal.uint) :
  IntLiteral.digits (NilEmpty.string_of_uint d)
  /\ Py.is_ascii (NilEmpty.string_of_uint d) = true.
Proof.
  induction d as [|d [IH1 IH2]|d [IH1 IH2]|d [IH1 IH2]|d [IH1 IH2]|d [IH1 IH2]
                 |d [IH1 IH2]|d [IH1 IH2]|d [IH1 IH2]|d [IH1 IH2]|d [IH1 IH2]];
    [done|..];
    (split; [split; [by apply digit_chars_spec|exact IH1]|];
     cbn [NilEmpty.string_of_uint Py.is_ascii]; by rewrite IH2).
Qed.

Lemma decimal_value_uint (d : Decimal.uint) (acc : Z) :
  IntLiteral.decimal_value acc (NilEmpty.string_of_uint d) = uint_value acc d.
Proof.
  revert acc. induction d; intros acc; [done|..];
    cbn [NilEmpty.string_of_uint IntLiteral.decimal_value uint_value];
    rewrite <- IHd; reflexivity.
Qed.

Lemma uint_value_revapp (d d' : Decimal.uint) :
  uint_value (Z.of_N (DecimalPos.Unsigned.of_lu d')) d
  = Z.of_N (DecimalPos.Unsigned.of_lu (Decimal.revapp d d')).
Proof.
  revert d'. induction d; intros d'; simpl; try done;
    rewrite <- IHd; f_equal; simpl DecimalPos.Unsigned.of_lu; lia.
Qed.

Lemma uint_value_of_uint (d : Decimal.uint) :
  uint_value 0 d = Z.of_N (Pos.of_uint d).
Proof.
  rewrite DecimalPos.Unsigned.of_uint_alt.
  exact (uint_value_revapp d Decimal.Nil).
Qed.

(** The decimal literal that [str] writes for [z] is an integer literal of
    value [z], as long as it has no more than 4300 characters. *)
Lemma literal_of_int (z : Z) :
  (String.length (Py.str (PyInt z)) <= 4300)%nat ->
  IntLiteral.literal (Py.str (PyInt z)) z
  /\ Py.is_ascii (Py.str (PyInt z)) = true.
Proof.
  destruct z as [|p|p]; simpl; intros Hlen.
  - split; [|done]. exists "", IntLiteral.NoSign, "0", [], "".
    repeat split; try done. by apply digit_chars_spec.
  - pose proof (DecimalPos.Unsigned.to_uint_nonnil p) as Hnn.
    pose proof (DecimalPos.Unsigned.of_to p) as Hof.
    destruct (digits_string_of_uint (Pos.to_uint p)) as [Hd Ha].
    assert (NilZero.string_of_uint (Pos.to_uint p)
            = NilEmpty.string_of_uint (Pos.to_uint p)) as E
      by (by destruct (Pos.to_uint p)).
    rewrite E in *. split; [|done].
    exists "", IntLiteral.NoSign, (NilEmpty.string_of_uint (Pos.to_uint p)), [], "".
    cbn [IntLiteral.sign_string IntLiteral.sign_value IntLiteral.tail_groups
         IntLiteral.all_digits].
    rewrite !string_app_nil_l, !string_app_nil_r.
    split; [done|]. split; [done|]. split; [done|]. split.
    { split; [|done]. by destruct (Pos.to_uint p). }
    split; [done|]. split; [done|].
    by rewrite decimal_value_uint, uint_value_of_uint, Hof.
  - pose proof (DecimalPos.Unsigned.to_uint_nonnil p) as Hnn.
    pose proof (DecimalPos.Unsigned.of_to p) as Hof.
    destruct (digits_string_of_uint (Pos.to_uint p)) as [Hd Ha].
    assert (NilZero.string_of_uint (Pos.to_uint p)
            = NilEmpty.string_of_uint (Pos.to_uint p)) as E
      by (by destruct (Pos.to_uint p)).
    rewrite E in *. split; [|by cbn [Py.is_ascii]; rewrite Ha].
    exists "", IntLiteral.Minus, (NilEmpty.string_of_uint (Pos.to_uint p)), [], "".
    cbn [IntLiteral.sign_string IntLiteral.sign_value IntLiteral.tail_groups
         IntLiteral.all_digits].
    rewrite !string_app_nil_l, !string_app_nil_r.
    split; [done|]. split; [done|]. split; [done|]. split.
    { split; [|done]. by destruct (Pos.to_uint p). }
    split; [done|]. split; [simpl in Hlen; lia|].
    by rewrite decimal_value_uint, uint_value_of_uint, Hof.
Qed.

(** [int(str(z))] gives [z] back. *)
Lemma int_str_roundtrip (z : Z) :
  (String.length (Py.str (PyInt z)) <= 4300)%nat ->
  Py.int (PyStr (Py.str (PyInt z))) = Ok z.
Proof.
  intros Hlen. destruct (literal_of_int z Hlen) as [Hlit Ha].
  cbn [Py.int]. apply (proj1 (int_of_str_literal _)).
  by rewrite to_ascii_ascii.
Qed.

(** *** The stock of a cell *)

(** The three branches of lines 221-227 on a string cell. *)
Lemma stock_of_str (s : string) :
  stock_of (PyStr s) =
  if decide (s = ">10") then Ok 100
  else if decide (s = "1") then Ok 0
  else Py.int (PyStr s).
Proof. reflexivity. Qed.


(** C6.  Quantity parsing sends [">10"] to 100 and ["1"] to 0.  Every
    other string goes through [int]: it gives [v] exactly when the string
    is a base-10 integer literal of value [v] (white space, an optional
    sign, digits with single underscores between groups, white space; a
    non-ASCII string is read after its Unicode digits and white space have
    been replaced by their ASCII counterparts), and fails with [ValueError]
    when it is not one.  So ["7"] gives 7, the decimal literal of any
    integer other than 1 gives that integer, and ["abc"] fails. *)
Theorem stock_of_spec :
  stock_of (PyStr ">10") = Ok 100
  /\ stock_of (PyStr "1") = Ok 0
  /\ (forall s : string,
        s <> ">10" -> s <> "1" -> stock_of (PyStr s) = Py.int (PyStr s))
  /\ (forall (s : string) (v : Z),
        s <> ">10" -> s <> "1" ->
        stock_of (PyStr s) = Ok v <-> IntLiteral.literal (Py.to_ascii s) v)
  /\ (forall s : string,
        s <> ">10" -> s <> "1" ->
        (forall v, ~ IntLiteral.literal (Py.to_ascii s) v) ->
        stock_of (PyStr s) = Raise ValueError)
  /\ (forall (s : string) (e : exn), stock_of (PyStr s) = Raise e -> e = ValueError)
  /\ (forall s : string, Py.is_ascii s = true -> Py.to_ascii s = s)
  /\ (forall z : Z,
        z <> 1 -> (String.length (Py.str (PyInt z)) <= 4300)%nat ->
        stock_of (PyStr (Py.str (PyInt z))) = Ok z)
  /\ stock_of (PyStr "7") = Ok 7
  /\ stock_of (PyStr "abc") = Raise ValueError.
Proof.
  assert (forall s : string,
             s <> ">10" -> s <> "1" -> stock_of (PyStr s) = Py.int_of_str s) as Helse.
  { intros s H1 H2. rewrite stock_of_str. by rewrite !decide_False. }
  split; [reflexivity|]. split; [reflexivity|].
  split; [exact Helse|]. split; [|split; [|split; [|split; [|split]]]].
  - intros s v H1 H2. rewrite (Helse s H1 H2).
    apply (proj1 (int_of_str_literal s)).
  - intros s H1 H2. rewrite (Helse s H1 H2).
    apply (proj1 (proj2 (int_of_str_literal s))).
  - intros s e. rewrite stock_of_str.
    destruct (decide (s = ">10")); [done|]. destruct (decide (s = "1")); [done|].
    apply (proj2 (proj2 (int_of_str_literal s))).
  - exact to_ascii_ascii.
  - intros z Hz Hlen. rewrite stock_of_str.
    rewrite decide_False by apply str_int_not_gt10.
    rewrite decide_False by (intros E; by apply str_int_1 in E).
    by apply int_str_roundtrip.
  - split; reflexivity.
Qed.

Lemma stock_of_spec_witness :
  " +1_250 " <> ">10" /\ " +1_250 " <> "1" /\ 12 <> 1
  /\ (String.length (Py.str (PyInt 12)) <= 4300)%nat
  /\ IntLiteral.literal (Py.to_ascii " +1_250 ") 1250
  /\ stock_of (PyStr " +1_250 ") = Ok 1250
  /\ stock_of (PyStr (Py.str (PyInt 12))) = Ok 12.
Proof.
  destruct stock_of_spec as (_ & _ & _ & Hlit & _ & _ & _ & Hz & _).
  assert (H1 : " +1_250 " <> ">10") by discriminate.
  assert (H2 : " +1_250 " <> "1") by discriminate.
  assert (H3 : 12 <> 1) by lia.
  assert (H4 : (String.length (Py.str (PyInt 12)) <= 4300)%nat)
    by (vm_compute; lia).
  assert (H5 : stock_of (PyStr " +1_250 ") = Ok 1250) by reflexivity.
  split; [exact H1|]. split; [exact H2|]. split; [exact H3|].
  split; [exact H4|]. split; [exact (proj1 (Hlit _ 1250 H1 H2) H5)|].
  split; [exact H5|]. exact (Hz 12 H3 H4).
Defined.

(** ** The batcher *)

(** A slice between two natural bounds is a [take] of a [drop]. *)
Lemma slice_nat {A} (l : list A) (a b : nat) :
  (a <= b)%nat ->
  Py.slice l (Z.of_nat a) (Z.of_nat b) = take (b - a) (drop a l).
Proof.
  intros Hab. unfold Py.slice.
  destruct (Z.ltb_spec (Z.of_nat b) 0) as [?|_]; [lia|].
  destruct (Z.ltb_spec (Z.of_nat a) 0) as [?|_]; [lia|].
  destruct (decide (length l <= a)%nat) as [Ha|Ha].
  - rewrite (drop_ge l a) by lia.
    rewrite drop_ge by lia. by rewrite !take_nil.
  - replace (Z.to_nat (Z.of_nat a `min` Z.of_nat (length l))) with a by lia.
    destruct (decide (b <= length l)%nat) as [Hb|Hb].
    + f_equal. lia.
    + rewrite !take_ge; [done| |]; rewrite length_drop; lia.
Qed.

Lemma chunk_count_bounds (len : nat) (n : Z) :
  0 < n ->
  (len = 0%nat -> chunk_count len n = 0%nat)
  /\ (len <> 0%nat ->
      (Z.of_nat (chunk_count len n) - 1) * n < Z.of_nat len
      <= Z.of_nat (chunk_count len n) * n).
Proof.
  intros Hn. unfold chunk_count. split.
  - intros ->. reflexivity.
  - intros Hlen.
    destruct (Z.ltb_spec 0 (Z.of_nat len)) as [_|?]; [|lia].
    pose proof (Z.div_mod (Z.of_nat len - 0 - 1) n ltac:(lia)) as Hdm.
    pose proof (Z.mod_pos_bound (Z.of_nat len - 0 - 1) n Hn) as Hmod.
    assert (0 <= (Z.of_nat len - 0 - 1) / n) by (apply Z.div_pos; lia).
    rewrite Z2Nat.id by lia. nia.
Qed.

(** For a positive size the chunks are the slices at the multiples of the
    size. *)
Lemma divide_pos {A} (lst : list A) (n : Z) :
  0 < n ->
  divide lst n =
  Ok (map (fun k => take (Z.to_nat n) (drop (k * Z.to_nat n) lst))
          (seq 0 (chunk_count (length lst) n))).
Proof.
  intros Hn. unfold divide, Py.range.
  destruct (Z.eqb_spec n 0) as [?|_]; [lia|].
  destruct (Z.ltb_spec 0 n) as [_|?]; [|lia].
  fold (chunk_count (length lst) n).
  f_equal. rewrite map_map. apply map_ext. intros k.
  replace (0 + Z.of_nat k * n) with (Z.of_nat (k * Z.to_nat n)) by lia.
  replace (Z.of_nat (k * Z.to_nat n) + n)
    with (Z.of_nat (k * Z.to_nat n + Z.to_nat n)) by lia.
  rewrite slice_nat by lia. f_equal. lia.
Qed.

Lemma concat_chunks {A} (sz : nat) (m : nat) (lst : list A) :
  (length lst <= m * sz)%nat ->
  concat (map (fun k => take sz (drop (k * sz) lst)) (seq 0 m)) = lst.
Proof.
  revert lst. induction m as [|m IH]; intros lst Hlen.
  - simpl. destruct lst; [done|]. simpl in Hlen. lia.
  - simpl seq. rewrite <- seq_shift, map_cons, map_map. simpl concat.
    transitivity (take sz lst ++ drop sz lst); [|apply take_drop].
    f_equal.
    etransitivity; [|apply (IH (drop sz lst)); rewrite length_drop; lia].
    f_equal. apply map_ext. intros k. f_equal.
    by rewrite drop_drop.
Qed.

(** C8.  For every list and every size [n > 0], [divide] yields the
    contiguous slices of the list taken at the multiples of [n], in order:
    every chunk has between 1 and [n] elements and every chunk but the last
    has exactly [n]; the chunks concatenated give the list back; the empty
    list gives no chunk, and a non-empty list shorter than [n] gives the
    single chunk equal to the list. *)
Theorem divide_spec {A} (lst : list A) (n : Z) :
  0 < n ->
  exists chunks : list (list A),
    divide lst n = Ok chunks
    /\ concat chunks = lst
    /\ (forall (i : nat) (c : list A),
          chunks !! i = Some c ->
          c = take (Z.to_nat n) (drop (i * Z.to_nat n) lst)
          /\ 1 <= Z.of_nat (length c) <= n
          /\ ((S i < length chunks)%nat -> Z.of_nat (length c) = n))
    /\ (lst = [] -> chunks = [])
    /\ (lst <> [] -> Z.of_nat (length lst) < n -> chunks = [lst]).
Proof.
  intros Hn. eexists. split; [apply (divide_pos lst n Hn)|].
  destruct (chunk_count_bounds (length lst) n Hn) as [Hz Hnz].
  set (m := chunk_count (length lst) n) in *.
  split; [|split; [|split]].
  - apply concat_chunks.
    destruct (decide (length lst = 0%nat)) as [E|E]; [lia|].
    specialize (Hnz E). nia.
  - intros i c Hi.
    rewrite list_lookup_fmap in Hi.
    destruct (seq 0 m !! i) as [k|] eqn:Hk; [|done].
    apply lookup_seq in Hk as [-> Hlt]. simpl in Hi.
    injection Hi as <-. split; [done|].
    assert (length lst <> 0%nat) as E by (intros E; specialize (Hz E); lia).
    specialize (Hnz E).
    rewrite length_map, length_seq, length_take, length_drop.
    split; [nia|]. intros Hlast. nia.
  - intros ->. by rewrite (Hz eq_refl).
  - intros Hne Hlt.
    assert (length lst <> 0%nat) as E by (by destruct lst).
    specialize (Hnz E).
    assert (m = 1%nat) as -> by nia.
    simpl. rewrite drop_0, take_ge by lia. done.
Qed.

Lemma divide_spec_witness :
  0 < 3
  /\ exists chunks : list (list Z),
      divide [1; 2; 3; 4; 5; 6; 7] 3 = Ok chunks
      /\ concat chunks = [1; 2; 3; 4; 5; 6; 7]
      /\ (forall (i : nat) (c : list Z),
            chunks !! i = Some c ->
            c = take (Z.to_nat 3) (drop (i * Z.to_nat 3) [1; 2; 3; 4; 5; 6; 7])
            /\ 1 <= Z.of_nat (length c) <= 3
            /\ ((S i < length chunks)%nat -> Z.of_nat (length c) = 3))
      /\ ([1; 2; 3; 4; 5; 6; 7] = [] -> chunks = [])
      /\ ([1; 2; 3; 4; 5; 6; 7] <> [] ->
          Z.of_nat (length [1; 2; 3; 4; 5; 6; 7]) < 3 ->
          chunks = [[1; 2; 3; 4; 5; 6; 7]]).
Proof.
  split; [lia|]. apply (divide_spec [1; 2; 3; 4; 5; 6; 7] 3). lia.
Defined.

(** The examples of the specification. *)
Example divide_by_two :
  divide [1; 2; 3; 4; 5; 6; 7; 8] 2 = Ok [[1; 2]; [3; 4]; [5; 6]; [7; 8]].
Proof. reflexivity. Qed.

Example divide_short_tail :
  divide [1; 2; 3; 4; 5; 6; 7] 3 = Ok [[1; 2; 3]; [4; 5; 6]; [7]].
Proof. reflexivity. Qed.

(** A negative size: [range(0, len, n)] is empty, nothing is raised. *)
Lemma divide_negative {A} (lst : list A) (n : Z) :
  n < 0 -> divide lst n = Ok [].
Proof.
  intros Hn. unfold divide, Py.range.
  destruct (Z.eqb_spec n 0) as [?|_]; [lia|].
  destruct (Z.ltb_spec 0 n) as [?|_]; [lia|].
  destruct (Z.ltb_spec (Z.of_nat (length lst)) 0) as [?|_]; [lia|].
  reflexivity.
Qed.

(** The statement "every size [n <= 0] makes [divide] fail" does not hold:
    with [n = -1] the list [[1; 2; 3]] gives zero chunks and no error. *)
Lemma divide_nonpositive_counterexample :
  -1 <= 0
  /\ divide [1; 2; 3] (-1) = Ok []
  /\ ~ (forall (lst : list Z) (n : Z), n <= 0 -> is_ok (divide lst n) = false).
Proof.
  split; [lia|]. split; [reflexivity|].
  intros H. specialize (H [1; 2; 3] (-1) ltac:(lia)). discriminate H.
Qed.

(** C9 (amended).  With size 0 [divide] fails on every list, with the
    [ValueError] of [range]; with a negative size it raises nothing and
    yields zero chunks. *)
Theorem divide_nonpositive {A} (lst : list A) (n : Z) :
  n <= 0 ->
  (n = 0 -> divide lst n = Raise ValueError)
  /\ (n < 0 -> divide lst n = Ok []).
Proof.
  intros _. split.
  - intros ->. reflexivity.
  - apply divide_negative.
Qed.

Lemma divide_nonpositive_witness :
  0 <= 0 /\ -2 <= 0
  /\ divide [1; 2; 3] 0 = Raise ValueError
  /\ divide [1; 2; 3] (-2) = Ok [].
Proof.
  assert (H0 : 0 <= 0) by lia.
  assert (H2 : -2 <= 0) by lia.
  split; [exact H0|]. split; [exact H2|]. split.
  - exact (proj1 (divide_nonpositive [1; 2; 3] 0 H0) eq_refl).
  - apply (proj2 (divide_nonpositive [1; 2; 3] (-2) H2)). lia.
Defined.

(** ** Lists of offer ids *)

Lemma contains_true (x : string) (l : list string) :
  Py.contains x l = true <-> x ∈ l.
Proof. unfold Py.contains. apply bool_decide_eq_true. Qed.

Lemma contains_false (x : string) (l : list string) :
  Py.contains x l = false <-> x ∉ l.
Proof. unfold Py.contains. apply bool_decide_eq_false. Qed.

Lemma remove_perm (x : string) (l l' : list string) :
  Py.remove x l = Ok l' -> l ≡ₚ x :: l'.
Proof.
  revert l'. induction l as [|y l IH]; intros l' H; simpl in H; [done|].
  destruct (decide (y = x)) as [->|Hne].
  - by injection H as <-.
  - destruct (Py.remove x l) as [r|e] eqn:E; [|done].
    injection H as <-. rewrite (IH r eq_refl). apply Permutation_swap.
Qed.

(** [remove] never raises on an element that [in] has found. *)
Lemma remove_elem (x : string) (l : list string) :
  x ∈ l -> exists l', Py.remove x l = Ok l'.
Proof.
  induction l as [|y l IH]; intros Hin; [by apply elem_of_nil in Hin|].
  simpl. destruct (decide (y = x)) as [->|Hne]; [by eexists|].
  apply elem_of_cons in Hin as [->|Hin]; [done|].
  destruct (IH Hin) as [r ->]. by eexists.
Qed.

Lemma remove_NoDup (x : string) (l l' : list string) :
  Py.remove x l = Ok l' -> NoDup l -> NoDup l' /\ x ∉ l'.
Proof.
  intros H Hnd. apply remove_perm in H. rewrite H in Hnd.
  apply NoDup_cons in Hnd. tauto.
Qed.

Lemma remove_elem_of (x y : string) (l l' : list string) :
  Py.remove x l = Ok l' -> (y ∈ l <-> y = x \/ y ∈ l').
Proof.
  intros H. apply remove_perm in H. rewrite H. apply elem_of_cons.
Qed.

(** ** The stock scan *)

(** One step of the scan, by cases on the test of line 220. *)
Lemma stocks_scan_skip w rest acc ids :
  code_of w ∉ ids ->
  stocks_scan (w :: rest) acc ids = stocks_scan rest acc ids.
Proof.
  intros H. apply contains_false in H. simpl. unfold code_of in H.
  by rewrite H.
Qed.

Lemma stocks_scan_hit w rest acc ids :
  code_of w ∈ ids ->
  exists ids1,
    Py.remove (code_of w) ids = Ok ids1
    /\ stocks_scan (w :: rest) acc ids =
       match stock_of (get w Kolichestvo) with
       | Ok v => stocks_scan rest (acc ++ [StockUpdate (code_of w) v]) ids1
       | Raise e => (Raise e, ids)
       end.
Proof.
  intros H. destruct (remove_elem _ _ H) as [ids1 Hr]. exists ids1.
  split; [done|]. apply contains_true in H. simpl. unfold code_of in *.
  rewrite H. destruct (stock_of (get w Kolichestvo)); [|done].
  by rewrite Hr.
Qed.

Lemma remaining_skip w rest ids :
  code_of w ∉ ids -> remaining (w :: rest) ids = remaining rest ids.
Proof. intros H. apply contains_false in H. simpl. by rewrite H. Qed.

Lemma remaining_hit w rest ids ids1 :
  code_of w ∈ ids -> Py.remove (code_of w) ids = Ok ids1 ->
  remaining (w :: rest) ids = remaining rest ids1.
Proof.
  intros H Hr. apply contains_true in H. simpl. by rewrite H, Hr.
Qed.

(** After a scan that did not raise, the caller's list is what [remaining]
    says. *)
Lemma stocks_scan_remaining ws acc ids s ids' :
  stocks_scan ws acc ids = (Ok s, ids') -> ids' = remaining ws ids.
Proof.
  revert acc ids. induction ws as [|w rest IH]; intros acc ids H.
  - simpl in H. by injection H as _ <-.
  - destruct (decide (code_of w ∈ ids)) as [Hin|Hout].
    + destruct (stocks_scan_hit w rest acc ids Hin) as (ids1 & Hr & E).
      rewrite E in H. rewrite (remaining_hit _ _ _ _ Hin Hr).
      destruct (stock_of (get w Kolichestvo)); [|done]. by eapply IH.
    + rewrite stocks_scan_skip in H by done.
      rewrite remaining_skip by done. by eapply IH.
Qed.

(** The ids written so far together with the ids still in the list are
    the ids written before together with the ids the scan started from. *)
Lemma stocks_scan_perm ws acc ids s ids' :
  stocks_scan ws acc ids = (Ok s, ids') ->
  map stock_offer_id s ++ ids' ≡ₚ map stock_offer_id acc ++ ids.
Proof.
  revert acc ids. induction ws as [|w rest IH]; intros acc ids H.
  - simpl in H. by injection H as <- <-.
  - destruct (decide (code_of w ∈ ids)) as [Hin|Hout].
    + destruct (stocks_scan_hit w rest acc ids Hin) as (ids1 & Hr & E).
      rewrite E in H. destruct (stock_of (get w Kolichestvo)) as [v|]; [|done].
      rewrite (IH _ _ H), map_app. simpl.
      rewrite (remove_perm _ _ _ Hr), <- app_assoc. done.
    + rewrite stocks_scan_skip in H by done. by eapply IH.
Qed.

(** What a scan appends comes from the rows, one entry per matched row. *)
Lemma stocks_scan_entries ws acc ids s ids' :
  stocks_scan ws acc ids = (Ok s, ids') ->
  exists m,
    s = acc ++ m
    /\ Forall (fun u => exists w, w ∈ ws /\ stock_entry_of w = Ok u) m.
Proof.
  revert acc ids. induction ws as [|w rest IH]; intros acc ids H.
  - simpl in H. injection H as <- <-. exists []. by rewrite app_nil_r.
  - destruct (decide (code_of w ∈ ids)) as [Hin|Hout].
    + destruct (stocks_scan_hit w rest acc ids Hin) as (ids1 & Hr & E).
      rewrite E in H.
      destruct (stock_of (get w Kolichestvo)) as [v|] eqn:Ev; [|done].
      destruct (IH _ _ H) as (m & -> & Hm).
      exists (StockUpdate (code_of w) v :: m). split.
      * by rewrite <- app_assoc.
      * constructor.
        -- exists w. split; [left|]. unfold stock_entry_of. by rewrite Ev.
        -- eapply Forall_impl; [exact Hm|].
           intros u (w' & Hw' & Hu). exists w'. split; [by right|done].
    + rewrite stocks_scan_skip in H by done.
      destruct (IH _ _ H) as (m & -> & Hm). exists m. split; [done|].
      eapply Forall_impl; [exact Hm|].
      intros u (w' & Hw' & Hu). exists w'. split; [by right|done].
Qed.

Lemma create_stocks_Ok ws ids stocks ids' :
  create_stocks ws ids = (Ok stocks, ids') ->
  exists s,
    stocks_scan ws [] ids = (Ok s, ids')
    /\ stocks = s ++ map (fun o => StockUpdate o 0) ids'.
Proof.
  unfold create_stocks.
  destruct (stocks_scan ws [] ids) as [[s|e] ids1]; [|done].
  intros H. injection H as <- <-. by exists s.
Qed.

(** C1.  Whenever [create_stocks] returns a list, for any rows and any
    list of offer ids: the list has as many entries as there are offer
    ids, and its offer ids are the given ones, each as often as given, so
    exactly once each when the offer ids are a set.  The entries are those
    of matched rows followed by one zero entry per offer id left
    unmatched. *)
Theorem create_stocks_covers (ws : list watch) (ids : list string)
    (stocks : list stock_update) (ids' : list string) :
  create_stocks ws ids = (Ok stocks, ids') ->
  length stocks = length ids
  /\ map stock_offer_id stocks ≡ₚ ids
  /\ (forall o : string, o ∈ map stock_offer_id stocks <-> o ∈ ids)
  /\ (NoDup ids -> NoDup (map stock_offer_id stocks))
  /\ exists m,
       stocks = m ++ map (fun o => StockUpdate o 0) (remaining ws ids)
       /\ Forall (fun u => exists w, w ∈ ws /\ stock_entry_of w = Ok u) m.
Proof.
  intros H. destruct (create_stocks_Ok _ _ _ _ H) as (s & Hs & ->).
  assert (map stock_offer_id
            (s ++ map (fun o => StockUpdate o 0) ids') ≡ₚ ids) as Hp.
  { rewrite map_app, map_map. simpl. rewrite map_id.
    apply (stocks_scan_perm _ _ _ _ _ Hs). }
  split; [|split; [done|split; [|split]]].
  - rewrite <- (length_map stock_offer_id). by rewrite Hp.
  - intros o. by rewrite Hp.
  - intros Hnd. by rewrite Hp.
  - destruct (stocks_scan_entries _ _ _ _ _ Hs) as (m & -> & Hm).
    exists m. split; [|done].
    by rewrite (stocks_scan_remaining _ _ _ _ _ Hs).
Qed.

Lemma create_stocks_covers_witness :
  let ws := [row (PyStr "A") (PyStr ">10") (PyStr "100.00 руб.");
             row (PyStr "B") (PyStr "1") (PyStr "50.00 руб.");
             row (PyStr "Z") (PyStr "abc") PyNone] in
  let ids := ["A"; "B"; "C"] in
  let stocks := [StockUpdate "A" 100; StockUpdate "B" 0; StockUpdate "C" 0] in
  create_stocks ws ids = (Ok stocks, ["C"])
  /\ length stocks = length ids
  /\ map stock_offer_id stocks ≡ₚ ids.
Proof.
  intros ws ids stocks.
  assert (H : create_stocks ws ids = (Ok stocks, ["C"])) by reflexivity.
  split; [exact H|].
  destruct (create_stocks_covers ws ids stocks ["C"] H) as (Hl & Hp & _).
  exact (conj Hl Hp).
Defined.

(** ** The price scan *)

Lemma prices_scan_collect ws acc ids :
  prices_scan ws acc ids =
  match collect (map price_entry_of (filter (fun w => code_of w ∈ ids) ws)) with
  | Ok l => Ok (acc ++ l)
  | Raise e => Raise e
  end.
Proof.
  revert acc. induction ws as [|w rest IH]; intros acc.
  - simpl. by rewrite app_nil_r.
  - rewrite filter_cons. simpl. unfold Py.contains. fold (code_of w).
    destruct (decide (code_of w ∈ ids)) as [Hin|Hout].
    + rewrite bool_decide_eq_true_2 by done. simpl.
      unfold price_entry_of at 1.
      destruct (price_conversion (get w Tsena)) as [p|e]; [|done].
      rewrite IH.
      destruct (collect _) as [l|e]; [|done]. by rewrite <- app_assoc.
    + rewrite bool_decide_eq_false_2 by done. apply IH.
Qed.

(** [create_prices] is the scan of the matched rows, in order, stopping at
    the first conversion that raises. *)
Lemma create_prices_collect ws ids :
  create_prices ws ids =
  collect (map price_entry_of (filter (fun w => code_of w ∈ ids) ws)).
Proof.
  unfold create_prices. rewrite prices_scan_collect.
  by destruct (collect _).
Qed.

Lemma collect_Ok {A B} (f : A -> result B) (l : list A) (bs : list B) :
  collect (map f l) = Ok bs <-> Forall2 (fun a b => f a = Ok b) l bs.
Proof.
  revert bs. induction l as [|a l IH]; intros bs; simpl.
  - split.
    + intros H. injection H as <-. constructor.
    + intros H. by inversion H.
  - destruct (f a) as [b|e] eqn:Ea.
    + destruct (collect (map f l)) as [r|e] eqn:Er.
      * split.
        -- intros H. injection H as <-. constructor; [done|]. by apply IH.
        -- intros H. inversion H as [|? b' ? r' Hb Hr]; subst.
           apply IH in Hr. injection Hr as <-. congruence.
      * split; [done|].
        intros H. inversion H as [|? b' ? r' Hb Hr]; subst.
        apply IH in Hr. done.
    + split; [done|]. intros H. inversion H; subst. congruence.
Qed.

Lemma collect_Raise {A B} (f : A -> result B) (l : list A) :
  is_ok (collect (map f l)) = false <-> exists a, a ∈ l /\ is_ok (f a) = false.
Proof.
  induction l as [|a l IH]; simpl.
  - split; [done|]. intros (a & Ha & _). by apply elem_of_nil in Ha.
  - destruct (f a) as [b|e] eqn:Ea.
    + destruct (collect (map f l)) as [r|e] eqn:Er; simpl in *.
      * split; [done|]. intros (a' & Ha' & Hf).
        apply elem_of_cons in Ha' as [->|Ha'].
        -- by rewrite Ea in Hf.
        -- apply IH. eauto.
      * split; [|done]. intros _.
        destruct (proj1 IH eq_refl) as (a' & Ha' & Hf).
        exists a'. split; [by right|done].
    + split; [|done]. intros _. exists a. split; [left|]. by rewrite Ea.
Qed.

(** The ids of matched rows that carry a given code. *)
Lemma filter_code_matched (o : string) (ids : list string) (ws : list watch) :
  filter (fun w => code_of w = o) (filter (fun w => code_of w ∈ ids) ws)
  = if decide (o ∈ ids) then filter (fun w => code_of w = o) ws else [].
Proof.
  destruct (decide (o ∈ ids)) as [Ho|Ho];
    (induction ws as [|w rest IH]; [done|]);
    rewrite (filter_cons (fun w => code_of w ∈ ids));
    rewrite ?(filter_cons (fun w => code_of w = o) w rest);
    destruct (decide (code_of w ∈ ids)) as [Hin|Hout];
    rewrite ?filter_cons, IH;
    destruct (decide (code_of w = o)) as [E|E]; try done;
    by subst o.
Qed.

Lemma filter_code_none (o : string) (ws : list watch) :
  (forall w, w ∈ ws -> code_of w <> o) ->
  filter (fun w => code_of w = o) ws = [].
Proof.
  induction ws as [|w rest IH]; intros Hnone; [done|].
  rewrite filter_cons, decide_False by (apply Hnone; left).
  apply IH. intros w' Hw'. apply Hnone. by right.
Qed.

(** Entries and rows correspond under the filters by offer id and code. *)
Lemma Forall2_filter_code (o : string) (l : list watch) (ps : list price_update) :
  Forall2 (fun w p => price_entry_of w = Ok p) l ps ->
  Forall2 (fun w p => price_entry_of w = Ok p)
    (filter (fun w => code_of w = o) l)
    (filter (fun p => price_offer_id p = o) ps).
Proof.
  induction 1 as [|w p l ps Hwp _ IH]; [constructor|].
  rewrite !filter_cons.
  assert (price_offer_id p = code_of w) as ->.
  { unfold price_entry_of in Hwp.
    destruct (price_conversion (get w Tsena)); [|done]. by injection Hwp as <-. }
  destruct (decide (code_of w = o)); [by constructor|done].
Qed.

(** C4.  Whenever [create_prices] returns a list, its entries are, in scan
    order, one per row whose stringified code is among the offer ids, each
    [{offer_id: code, price: price_conversion(price), currency_code: "RUB",
    old_price: "0", auto_action_enabled: "UNKNOWN"}]; an offer id occurs in
    the output as often as there are rows carrying it, and an offer id that
    no row carries has no entry. *)
Theorem create_prices_spec (ws : list watch) (ids : list string)
    (prices : list price_update) :
  create_prices ws ids = Ok prices ->
  Forall2
    (fun w p =>
       exists s, price_conversion (get w Tsena) = Ok s
         /\ p = {| auto_action_enabled := "UNKNOWN"; currency_code := "RUB";
                  price_offer_id := code_of w; old_price := "0"; price := s |})
    (filter (fun w => code_of w ∈ ids) ws) prices
  /\ (forall o : string,
        length (filter (fun p => price_offer_id p = o) prices)
        = if decide (o ∈ ids)
          then length (filter (fun w => code_of w = o) ws)
          else 0%nat)
  /\ (forall o : string,
        (forall w, w ∈ ws -> code_of w <> o) ->
        o ∉ map price_offer_id prices).
Proof.
  intros H. rewrite create_prices_collect in H. apply collect_Ok in H.
  assert (forall o : string,
            length (filter (fun p => price_offer_id p = o) prices)
            = if decide (o ∈ ids)
              then length (filter (fun w => code_of w = o) ws)
              else 0%nat) as Hcount.
  { intros o. pose proof (Forall2_filter_code o _ _ H) as Hf.
    apply Forall2_length in Hf. rewrite <- Hf, filter_code_matched.
    by destruct (decide (o ∈ ids)). }
  split; [|split; [exact Hcount|]].
  - eapply Forall2_impl; [exact H|]. intros w p Hwp.
    unfold price_entry_of in Hwp.
    destruct (price_conversion (get w Tsena)) as [s|]; [|done].
    injection Hwp as <-. by exists s.
  - intros o Hnone Hin.
    apply list_elem_of_fmap in Hin as (p & -> & Hp).
    specialize (Hcount (price_offer_id p)).
    pose proof (filter_code_none _ _ Hnone) as Hnil.
    rewrite Hnil in Hcount.
    assert (p ∈ filter (fun q => price_offer_id q = price_offer_id p) prices)
      as Hpin by (by apply list_elem_of_filter).
    destruct (filter _ prices); [by apply elem_of_nil in Hpin|].
    by destruct (decide (price_offer_id p ∈ ids)).
Qed.

(** ** Which offer ids are left after a stock scan *)

Lemma remaining_subset (c : string) ws ids :
  c ∈ remaining ws ids -> c ∈ ids.
Proof.
  revert ids. induction ws as [|w rest IH]; intros ids H; [done|].
  destruct (decide (code_of w ∈ ids)) as [Hin|Hout].
  - destruct (remove_elem _ _ Hin) as [ids1 Hr].
    rewrite (remaining_hit _ _ _ _ Hin Hr) in H.
    apply IH in H. apply (remove_elem_of _ c _ _ Hr). by right.
  - rewrite remaining_skip in H by done. by apply IH.
Qed.

Lemma remaining_NoDup ws ids : NoDup ids -> NoDup (remaining ws ids).
Proof.
  revert ids. induction ws as [|w rest IH]; intros ids Hnd; [done|].
  destruct (decide (code_of w ∈ ids)) as [Hin|Hout].
  - destruct (remove_elem _ _ Hin) as [ids1 Hr].
    rewrite (remaining_hit _ _ _ _ Hin Hr).
    apply IH. by apply (remove_NoDup _ _ _ Hr).
  - rewrite remaining_skip by done. by apply IH.
Qed.

(** In a set of offer ids, the ids left are those that no scanned row
    carries. *)
Lemma remaining_elem (c : string) ws ids :
  NoDup ids ->
  c ∈ remaining ws ids <-> c ∈ ids /\ forall w, w ∈ ws -> code_of w <> c.
Proof.
  revert ids. induction ws as [|w rest IH]; intros ids Hnd.
  - simpl. split; [|tauto]. intros H. split; [done|].
    intros w Hw. by apply elem_of_nil in Hw.
  - destruct (decide (code_of w ∈ ids)) as [Hin|Hout].
    + destruct (remove_elem _ _ Hin) as [ids1 Hr].
      rewrite (remaining_hit _ _ _ _ Hin Hr).
      destruct (remove_NoDup _ _ _ Hr Hnd) as [Hnd1 Hnot].
      rewrite (IH ids1 Hnd1), (remove_elem_of _ c _ _ Hr). split.
      * intros [Hc Hrest]. split; [by right|].
        intros w' Hw'. apply elem_of_cons in Hw' as [->|Hw']; [|by apply Hrest].
        by intros <-.
      * intros [[->|Hc] Hall].
        -- exfalso. by apply (Hall w); [left|].
        -- split; [done|]. intros w' Hw'. apply Hall. by right.
    + rewrite remaining_skip by done. rewrite (IH ids Hnd). split.
      * intros [Hc Hrest]. split; [done|].
        intros w' Hw'. apply elem_of_cons in Hw' as [->|Hw']; [|by apply Hrest].
        by intros <-.
      * intros [Hc Hall]. split; [done|]. intros w' Hw'. apply Hall. by right.
Qed.

Lemma remaining_app ws1 ws2 ids :
  remaining (ws1 ++ ws2) ids = remaining ws2 (remaining ws1 ids).
Proof.
  revert ids. induction ws1 as [|w rest IH]; intros ids; [done|].
  simpl. destruct (Py.contains (code_of w) ids); [|apply IH].
  destruct (Py.remove (code_of w) ids); apply IH.
Qed.

(** ** Stock entries by offer id *)

Lemma filter_stock_snoc (c : string) (acc : list stock_update) (u : stock_update) :
  filter (fun x => stock_offer_id x = c) (acc ++ [u])
  = filter (fun x => stock_offer_id x = c) acc
    ++ (if decide (stock_offer_id u = c) then [u] else []).
Proof.
  rewrite filter_app. by f_equal.
Qed.

Lemma filter_zero_fill (c : string) (l : list string) :
  c ∉ l ->
  filter (fun x => stock_offer_id x = c) (map (fun o => StockUpdate o 0) l) = [].
Proof.
  induction l as [|o l IH]; intros H; [done|].
  apply not_elem_of_cons in H as [Hne Hl].
  simpl. rewrite filter_cons. simpl. rewrite decide_False by done. by apply IH.
Qed.

(** No entry is written for an id that is not in the list. *)
Lemma stocks_scan_absent (c : string) ws acc ids s ids' :
  c ∉ ids ->
  stocks_scan ws acc ids = (Ok s, ids') ->
  filter (fun x => stock_offer_id x = c) s
  = filter (fun x => stock_offer_id x = c) acc.
Proof.
  revert acc ids. induction ws as [|w rest IH]; intros acc ids Hc H.
  - simpl in H. by injection H as <- <-.
  - destruct (decide (code_of w ∈ ids)) as [Hin|Hout].
    + destruct (stocks_scan_hit w rest acc ids Hin) as (ids1 & Hr & E).
      rewrite E in H. destruct (stock_of (get w Kolichestvo)) as [v|]; [|done].
      assert (c ∉ ids1) as Hc1.
      { intros Hc1. apply Hc. apply (remove_elem_of _ c _ _ Hr). by right. }
      rewrite (IH _ ids1 Hc1 H), filter_stock_snoc. simpl.
      rewrite decide_False, app_nil_r; [done|]. by intros <-.
    + rewrite stocks_scan_skip in H by done. by eapply IH.
Qed.

(** In a set of offer ids, the entries written for an id of the set are:
    none when no row carries it, and otherwise the single entry of the
    first row that carries it. *)
Lemma stocks_scan_first (c : string) ws acc ids s ids' :
  NoDup ids -> c ∈ ids ->
  stocks_scan ws acc ids = (Ok s, ids') ->
  match filter (fun w => code_of w = c) ws with
  | [] =>
      filter (fun x => stock_offer_id x = c) s
      = filter (fun x => stock_offer_id x = c) acc
  | w1 :: _ =>
      exists v, stock_of (get w1 Kolichestvo) = Ok v
        /\ filter (fun x => stock_offer_id x = c) s
           = filter (fun x => stock_offer_id x = c) acc ++ [StockUpdate c v]
  end.
Proof.
  revert acc ids. induction ws as [|w rest IH]; intros acc ids Hnd Hc H.
  - simpl in H. by injection H as <- <-.
  - rewrite filter_cons.
    destruct (decide (code_of w ∈ ids)) as [Hin|Hout].
    + destruct (stocks_scan_hit w rest acc ids Hin) as (ids1 & Hr & E).
      rewrite E in H.
      destruct (stock_of (get w Kolichestvo)) as [v|] eqn:Ev; [|done].
      destruct (remove_NoDup _ _ _ Hr Hnd) as [Hnd1 Hnot].
      destruct (decide (code_of w = c)) as [Heq|Hne].
      * exists v. split; [done|]. rewrite Heq in Hnot, H.
        rewrite (stocks_scan_absent _ _ _ _ _ _ Hnot H), filter_stock_snoc.
        simpl. by rewrite decide_True.
      * assert (c ∈ ids1) as Hc1.
        { destruct (proj1 (remove_elem_of _ c _ _ Hr) Hc) as [Hcw|Hc1]; [|done].
          by destruct Hne. }
        specialize (IH _ _ Hnd1 Hc1 H).
        rewrite filter_stock_snoc in IH. simpl in IH.
        rewrite decide_False, app_nil_r in IH by done. exact IH.
    + rewrite stocks_scan_skip in H by done.
      rewrite decide_False by (intros Heq; by rewrite Heq in Hout).
      by eapply IH.
Qed.

(** ** Duplicate codes in the feed *)

(** C3.  When exactly two rows [r1], [r2] (in scan order) share a code that
    is in the set of offer ids, and both operations return: [create_prices]
    has two entries for that code, those of [r1] and [r2], and
    [create_stocks] has exactly one, whose stock is computed from [r1], the
    first of the two. *)
Theorem duplicate_codes (ws : list watch) (ids : list string) (c : string)
    (r1 r2 : watch) (stocks : list stock_update) (ids' : list string)
    (prices : list price_update) :
  NoDup ids ->
  c ∈ ids ->
  filter (fun w => code_of w = c) ws = [r1; r2] ->
  create_stocks ws ids = (Ok stocks, ids') ->
  create_prices ws ids = Ok prices ->
  (exists p1 p2,
      filter (fun p => price_offer_id p = c) prices = [p1; p2]
      /\ price_entry_of r1 = Ok p1 /\ price_entry_of r2 = Ok p2)
  /\ (exists v,
        stock_of (get r1 Kolichestvo) = Ok v
        /\ filter (fun u => stock_offer_id u = c) stocks = [StockUpdate c v]).
Proof.
  intros Hnd Hc Hdup Hs Hp. split.
  - rewrite create_prices_collect in Hp. apply collect_Ok in Hp.
    apply (Forall2_filter_code c) in Hp.
    rewrite filter_code_matched, decide_True, Hdup in Hp by done.
    inversion Hp as [|? p1 ? l1 Hp1 Hrest Ea Eb]; subst.
    inversion Hrest as [|? p2 ? l2 Hp2 Hnil Ec Ed]; subst.
    inversion Hnil; subst. exists p1, p2. split; [congruence|done].
  - destruct (create_stocks_Ok _ _ _ _ Hs) as (s & Hscan & ->).
    pose proof (stocks_scan_first c _ _ _ _ _ Hnd Hc Hscan) as Hfirst.
    rewrite Hdup in Hfirst. destruct Hfirst as (v & Hv & Hf).
    exists v. split; [done|].
    rewrite filter_app, Hf, filter_zero_fill; [done|].
    rewrite (stocks_scan_remaining _ _ _ _ _ Hscan).
    rewrite (remaining_elem c ws ids Hnd). intros [_ Hall].
    assert (r1 ∈ filter (fun w => code_of w = c) ws) as Hr1
      by (rewrite Hdup; left).
    apply list_elem_of_filter in Hr1 as [Hcode Hin]. by apply (Hall r1).
Qed.

Lemma duplicate_codes_witness :
  let r1 := row (PyStr "A") (PyStr "7") (PyStr "100.00 руб.") in
  let r2 := row (PyStr "A") (PyStr "9") (PyStr "250.00 руб.") in
  let ws := [r1; row (PyStr "B") (PyStr ">10") (PyStr "50.00 руб."); r2] in
  let ids := ["A"; "B"; "C"] in
  exists stocks ids' prices,
    create_stocks ws ids = (Ok stocks, ids')
    /\ create_prices ws ids = Ok prices
    /\ (exists p1 p2,
          filter (fun p => price_offer_id p = "A") prices = [p1; p2]
          /\ price_entry_of r1 = Ok p1 /\ price_entry_of r2 = Ok p2)
    /\ (exists v,
          stock_of (get r1 Kolichestvo) = Ok v
          /\ filter (fun u => stock_offer_id u = "A") stocks
             = [StockUpdate "A" v]).
Proof.
  intros r1 r2 ws ids.
  exists [StockUpdate "A" 7; StockUpdate "B" 100; StockUpdate "C" 0], ["C"],
    [PriceUpdate "UNKNOWN" "RUB" "A" "0" "100";
     PriceUpdate "UNKNOWN" "RUB" "B" "0" "50";
     PriceUpdate "UNKNOWN" "RUB" "A" "0" "250"].
  assert (Hs : create_stocks ws ids
               = (Ok [StockUpdate "A" 7; StockUpdate "B" 100; StockUpdate "C" 0],
                  ["C"])) by reflexivity.
  assert (Hp : create_prices ws ids
               = Ok [PriceUpdate "UNKNOWN" "RUB" "A" "0" "100";
                     PriceUpdate "UNKNOWN" "RUB" "B" "0" "50";
                     PriceUpdate "UNKNOWN" "RUB" "A" "0" "250"]) by reflexivity.
  assert (Hnd : NoDup ids) by (apply (bool_decide_unpack _); vm_compute; exact I).
  assert (Hc : "A" ∈ ids) by (apply (bool_decide_unpack _); vm_compute; exact I).
  assert (Hf : filter (fun w => code_of w = "A") ws = [r1; r2])
    by (vm_compute; reflexivity).
  split; [exact Hs|]. split; [exact Hp|].
  exact (duplicate_codes ws ids "A" r1 r2 _ _ _ Hnd Hc Hf Hs Hp).
Defined.

Lemma create_prices_spec_witness :
  let ws := [row (PyStr "A") (PyStr ">10") (PyStr "100.00 руб.");
             row (PyStr "B") (PyStr "1") (PyStr "50.00 руб.");
             row (PyStr "Z") (PyStr "3") PyNone] in
  let ids := ["A"; "B"; "C"] in
  let prices := [PriceUpdate "UNKNOWN" "RUB" "A" "0" "100";
                 PriceUpdate "UNKNOWN" "RUB" "B" "0" "50"] in
  create_prices ws ids = Ok prices
  /\ (forall o : string,
        length (filter (fun p => price_offer_id p = o) prices)
        = if decide (o ∈ ids)
          then length (filter (fun w => code_of w = o) ws)
          else 0%nat).
Proof.
  intros ws ids prices.
  assert (H : create_prices ws ids = Ok prices) by reflexivity.
  split; [exact H|].
  exact (proj1 (proj2 (create_prices_spec ws ids prices H))).
Defined.

(** ** The caller's list after [create_stocks] *)

(** Whatever the outcome, no id is added to the caller's list. *)
Lemma stocks_scan_state_subset (c : string) ws acc ids :
  c ∈ snd (stocks_scan ws acc ids) -> c ∈ ids.
Proof.
  revert acc ids. induction ws as [|w rest IH]; intros acc ids H; [done|].
  destruct (decide (code_of w ∈ ids)) as [Hin|Hout].
  - destruct (stocks_scan_hit w rest acc ids Hin) as (ids1 & Hr & E).
    rewrite E in H. destruct (stock_of (get w Kolichestvo)); [|done].
    apply IH in H. apply (remove_elem_of _ c _ _ Hr). by right.
  - rewrite stocks_scan_skip in H by done. by eapply IH.
Qed.

(** When [create_stocks] returns, the caller's list holds the unmatched
    ids only. *)
Lemma create_stocks_state ws ids stocks ids' :
  create_stocks ws ids = (Ok stocks, ids') -> ids' = remaining ws ids.
Proof.
  intros H. destruct (create_stocks_Ok _ _ _ _ H) as (s & Hs & _).
  by eapply stocks_scan_remaining.
Qed.

(** X6.  When [create_stocks] returns, the caller's list is left unchanged
    exactly when no row of the feed has its code in the list; as soon as one
    row matches, the list the caller holds is shorter. *)
Lemma create_stocks_frame ws ids stocks ids' :
  create_stocks ws ids = (Ok stocks, ids') ->
  ids' = ids <-> forall w, w ∈ ws -> code_of w ∉ ids.
Proof.
  intros H. apply create_stocks_state in H. subst ids'.
  revert ids. induction ws as [|w rest IH]; intros ids.
  - split; [|done]. intros _ w Hw. by apply elem_of_nil in Hw.
  - destruct (decide (code_of w ∈ ids)) as [Hin|Hout].
    + destruct (remove_elem _ _ Hin) as [ids1 Hr].
      rewrite (remaining_hit _ _ _ _ Hin Hr). split.
      * intros E. exfalso.
        assert (length (remaining rest ids1) <= length ids1)%nat as Hle.
        { clear. revert ids1. induction rest as [|w' rest' IH']; intros l; [done|].
          simpl. destruct (Py.contains (code_of w') l) eqn:Ec; [|apply IH'].
          destruct (Py.remove (code_of w') l) as [l1|] eqn:Er; [|apply IH'].
          apply remove_perm in Er. rewrite Er. simpl.
          specialize (IH' l1). lia. }
        apply remove_perm in Hr. rewrite E, Hr in Hle. simpl in Hle. lia.
      * intros Hall. exfalso. by apply (Hall w); [left|].
    + rewrite remaining_skip by done. rewrite IH. split.
      * intros Hall w' Hw'.
        apply elem_of_cons in Hw' as [->|Hw']; [done|by apply Hall].
      * intros Hall w' Hw'. apply Hall. by right.
Qed.

Lemma filter_none {A} (P : A -> Prop) `{forall x, Decision (P x)} (l : list A) :
  (forall x, x ∈ l -> ~ P x) -> filter P l = [].
Proof.
  induction l as [|a l IH]; intros Hall; [done|].
  rewrite filter_cons, decide_False by (apply Hall; left).
  apply IH. intros x Hx. apply Hall. by right.
Qed.

(** On a set of offer ids, the prices built from the list that a stock
    run has left are empty: every row's code has been taken out. *)
Lemma prices_after_stocks ws ids :
  NoDup ids -> create_prices ws (remaining ws ids) = Ok [].
Proof.
  intros Hnd. rewrite create_prices_collect, filter_none; [done|].
  intros w Hw Hin. apply (remaining_elem _ ws ids Hnd) in Hin as [_ Hall].
  by apply (Hall w).
Qed.

(** C2.  The code at the input [[{"Код": "A", "Количество": "5", "Цена":
    "100.00 руб."}]], [offer_ids = ["A"]]: [create_stocks] takes ["A"] out
    of the caller's list, and [create_prices] run on the list afterwards, as
    [main] does, returns no entry, while run first it returns the entry for
    ["A"].  (The statement that the argument is unchanged and that the order
    does not matter fails here.) *)
Theorem create_stocks_consumes_offer_ids :
  let ws := [row (PyStr "A") (PyStr "5") (PyStr "100.00 руб.")] in
  let ids := ["A"] in
  snd (create_stocks ws ids) = []
  /\ stocks_then_prices ws ids = (Ok [StockUpdate "A" 5], Ok [])
  /\ prices_then_stocks ws ids
     = (Ok [PriceUpdate "UNKNOWN" "RUB" "A" "0" "100"], Ok [StockUpdate "A" 5])
  /\ snd (stocks_then_prices ws ids) <> fst (prices_then_stocks ws ids).
Proof.
  repeat split; try reflexivity. vm_compute. discriminate.
Qed.

(** X8.  In [main]'s order, stocks first and prices from the same list
    afterwards, the price list is empty on every feed and every set of
    offer ids on which the stock run returns. *)
Lemma stocks_then_prices_empty ws ids stocks ids' :
  NoDup ids ->
  create_stocks ws ids = (Ok stocks, ids') ->
  stocks_then_prices ws ids = (Ok stocks, Ok []).
Proof.
  intros Hnd H. unfold stocks_then_prices. rewrite H.
  rewrite (create_stocks_state _ _ _ _ H). by rewrite prices_after_stocks.
Qed.

(** ** Failures *)

Lemma stocks_scan_app ws1 ws2 acc ids :
  stocks_scan (ws1 ++ ws2) acc ids =
  match stocks_scan ws1 acc ids with
  | (Ok s, ids1) => stocks_scan ws2 s ids1
  | (Raise e, ids1) => (Raise e, ids1)
  end.
Proof.
  revert acc ids. induction ws1 as [|w rest IH]; intros acc ids; [done|].
  rewrite <- app_comm_cons.
  destruct (decide (code_of w ∈ ids)) as [Hin|Hout].
  - destruct (stocks_scan_hit w (rest ++ ws2) acc ids Hin) as (ids1 & Hr & ->).
    destruct (stocks_scan_hit w rest acc ids Hin) as (ids2 & Hr2 & ->).
    rewrite Hr in Hr2. injection Hr2 as <-.
    destruct (stock_of (get w Kolichestvo)); [apply IH|done].
  - rewrite !stocks_scan_skip by done. apply IH.
Qed.

(** The exception of a stock scan is the one [int] raised on the quantity
    of a row whose code was in the list when the row was reached. *)
Lemma stocks_scan_raise ws acc ids e :
  fst (stocks_scan ws acc ids) = Raise e ->
  exists pre w post,
    ws = pre ++ w :: post
    /\ code_of w ∈ remaining pre ids
    /\ stock_of (get w Kolichestvo) = Raise e.
Proof.
  revert acc ids. induction ws as [|w rest IH]; intros acc ids H; [done|].
  destruct (decide (code_of w ∈ ids)) as [Hin|Hout].
  - destruct (stocks_scan_hit w rest acc ids Hin) as (ids1 & Hr & E).
    rewrite E in H.
    destruct (stock_of (get w Kolichestvo)) as [v|e'] eqn:Ev.
    + destruct (IH _ _ H) as (pre & w' & post & -> & Hw' & He).
      exists (w :: pre), w', post. split; [done|].
      by rewrite (remaining_hit _ _ _ _ Hin Hr).
    + simpl in H. injection H as ->. by exists [], w, rest.
  - rewrite stocks_scan_skip in H by done.
    destruct (IH _ _ H) as (pre & w' & post & -> & Hw' & He).
    exists (w :: pre), w', post. split; [done|].
    by rewrite remaining_skip.
Qed.

Lemma stocks_scan_fails ws acc ids :
  is_ok (fst (stocks_scan ws acc ids)) = false <->
  exists pre w post,
    ws = pre ++ w :: post
    /\ code_of w ∈ remaining pre ids
    /\ is_ok (stock_of (get w Kolichestvo)) = false.
Proof.
  split.
  - destruct (fst (stocks_scan ws acc ids)) as [s|e] eqn:E; [done|]. intros _.
    destruct (stocks_scan_raise _ _ _ _ E) as (pre & w & post & ? & ? & He).
    exists pre, w, post. by rewrite He.
  - intros (pre & w & post & -> & Hin & Hbad).
    rewrite stocks_scan_app.
    destruct (stocks_scan pre acc ids) as [[s|e] ids1] eqn:Epre; [|done].
    rewrite <- (stocks_scan_remaining _ _ _ _ _ Epre) in Hin.
    destruct (stocks_scan_hit w post s ids1 Hin) as (ids2 & _ & ->).
    by destruct (stock_of (get w Kolichestvo)).
Qed.

Lemma create_stocks_fst ws ids :
  is_ok (fst (create_stocks ws ids)) = is_ok (fst (stocks_scan ws [] ids))
  /\ forall e, fst (create_stocks ws ids) = Raise e
               <-> fst (stocks_scan ws [] ids) = Raise e.
Proof.
  unfold create_stocks.
  by destruct (stocks_scan ws [] ids) as [[s|e] ids1].
Qed.

(** A row whose code is not among the offer ids leaves both operations as
    they are without it. *)
Lemma unmatched_row_stocks pre w post ids :
  code_of w ∉ ids ->
  create_stocks (pre ++ w :: post) ids = create_stocks (pre ++ post) ids.
Proof.
  intros Hout. unfold create_stocks. rewrite !stocks_scan_app.
  destruct (stocks_scan pre [] ids) as [[s|e] ids1] eqn:Epre; [|done].
  rewrite stocks_scan_skip; [done|].
  intros Hin. apply Hout. apply (stocks_scan_state_subset _ pre [] ids).
  by rewrite Epre.
Qed.

Lemma unmatched_row_prices pre w post ids :
  code_of w ∉ ids ->
  create_prices (pre ++ w :: post) ids = create_prices (pre ++ post) ids.
Proof.
  intros Hout. rewrite !create_prices_collect, !filter_app, filter_cons.
  by rewrite decide_False.
Qed.

Lemma collect_raise {A B} (f : A -> result B) (l : list A) (e : exn) :
  collect (map f l) = Raise e -> exists a, a ∈ l /\ f a = Raise e.
Proof.
  induction l as [|a l IH]; simpl; [done|].
  destruct (f a) as [b|e'] eqn:Ea.
  - destruct (collect (map f l)) as [r|e'']; [done|].
    intros H. injection H as ->. destruct (IH eq_refl) as (a' & Ha' & He).
    exists a'. split; [by right|done].
  - intros H. injection H as ->. exists a. split; [left|done].
Qed.

(** C10.  Both operations convert the fields of matched rows only.
    [create_prices] fails if and only if some row whose code is among the
    offer ids has a price that [price_conversion] refuses; [create_stocks]
    fails if and only if some row whose code is in the list when the row is
    scanned (for a set of offer ids: a row whose code is in the set and that
    is the first with its code) has a quantity that the parse refuses; the
    exception is the one the conversion raised; and a row whose code is not
    among the offer ids changes nothing, whatever its other fields hold. *)
Theorem parse_only_matched :
  (forall ws ids,
      is_ok (create_prices ws ids) = false <->
      exists w, w ∈ ws /\ code_of w ∈ ids
                /\ is_ok (price_conversion (get w Tsena)) = false)
  /\ (forall ws ids,
        is_ok (fst (create_stocks ws ids)) = false <->
        exists pre w post,
          ws = pre ++ w :: post
          /\ code_of w ∈ remaining pre ids
          /\ is_ok (stock_of (get w Kolichestvo)) = false)
  /\ (forall ws ids,
        NoDup ids ->
        is_ok (fst (create_stocks ws ids)) = false <->
        exists pre w post,
          ws = pre ++ w :: post
          /\ code_of w ∈ ids
          /\ (forall w', w' ∈ pre -> code_of w' <> code_of w)
          /\ is_ok (stock_of (get w Kolichestvo)) = false)
  /\ (forall ws ids e,
        (create_prices ws ids = Raise e ->
         exists w, w ∈ ws /\ code_of w ∈ ids
                   /\ price_conversion (get w Tsena) = Raise e)
        /\ (fst (create_stocks ws ids) = Raise e ->
            exists w, w ∈ ws /\ code_of w ∈ ids
                      /\ stock_of (get w Kolichestvo) = Raise e))
  /\ (forall pre w post ids,
        code_of w ∉ ids ->
        create_stocks (pre ++ w :: post) ids = create_stocks (pre ++ post) ids
        /\ create_prices (pre ++ w :: post) ids = create_prices (pre ++ post) ids).
Proof.
  split; [|split; [|split; [|split]]].
  - intros ws ids. rewrite create_prices_collect, collect_Raise. split.
    + intros (w & Hw & Hbad). apply list_elem_of_filter in Hw as [Hin Hw].
      exists w. split; [done|]. split; [done|].
      unfold price_entry_of in Hbad.
      by destruct (price_conversion (get w Tsena)).
    + intros (w & Hw & Hin & Hbad). exists w. split.
      * by apply list_elem_of_filter.
      * unfold price_entry_of. by destruct (price_conversion (get w Tsena)).
  - intros ws ids. rewrite (proj1 (create_stocks_fst ws ids)).
    apply stocks_scan_fails.
  - intros ws ids Hnd. rewrite (proj1 (create_stocks_fst ws ids)).
    rewrite stocks_scan_fails. split.
    + intros (pre & w & post & E & Hin & Hbad). exists pre, w, post.
      apply (remaining_elem _ pre ids Hnd) in Hin as [Hin Hall]. done.
    + intros (pre & w & post & E & Hin & Hall & Hbad). exists pre, w, post.
      split; [done|]. split; [|done]. by apply (remaining_elem _ pre ids Hnd).
  - intros ws ids e. split.
    + rewrite create_prices_collect. intros H.
      apply collect_raise in H as (w & Hw & He).
      apply list_elem_of_filter in Hw as [Hin Hw].
      exists w. split; [done|]. split; [done|].
      unfold price_entry_of in He.
      destruct (price_conversion (get w Tsena)); [done|]. by injection He as ->.
    + intros H. apply (proj2 (create_stocks_fst ws ids)) in H.
      apply stocks_scan_raise in H as (pre & w & post & -> & Hin & He).
      exists w. split; [|split; [|done]].
      * apply elem_of_app. right. left.
      * by eapply remaining_subset.
  - intros pre w post ids Hout. split.
    + by apply unmatched_row_stocks.
    + by apply unmatched_row_prices.
Qed.

(** ** The catalogue enumerator *)

Lemma reached_single acc p :
  reached acc [p] <-> total p = Z.of_nat (length (acc ++ items p)).
Proof. unfold reached, all_items. simpl. by rewrite app_nil_r. Qed.

Lemma reached_cons acc p ps :
  ps <> [] -> reached acc (p :: ps) <-> reached (acc ++ items p) ps.
Proof.
  intros Hne. destruct ps as [|q ps]; [done|].
  unfold reached, all_items.
  change (last (p :: q :: ps)) with (last (q :: ps)).
  simpl concat. by rewrite (app_assoc acc).
Qed.

Lemma stops_at_single acc p : stops_at acc [p] <-> reached acc [p].
Proof.
  split; [by intros [H _]|]. intros H. split; [done|].
  intros ps1 ps2 E Hn1 Hn2. apply (f_equal length) in E.
  rewrite length_app in E. simpl in E.
  destruct ps1; [done|]. destruct ps2; [done|]. simpl in E. lia.
Qed.

Lemma stops_at_cons acc p ps :
  ps <> [] ->
  stops_at acc (p :: ps) <-> ~ reached acc [p] /\ stops_at (acc ++ items p) ps.
Proof.
  intros Hne. split.
  - intros [Hr Hpre]. split; [|split].
    + by apply (Hpre [p] ps).
    + by apply reached_cons.
    + intros ps1 ps2 -> Hn1 Hn2 Hr1.
      apply (Hpre (p :: ps1) ps2); [done..|]. by apply reached_cons.
  - intros [Hfirst [Hr Hpre]]. split; [by apply reached_cons|].
    intros ps1 ps2 E Hn1 Hn2 Hr1.
    destruct ps1 as [|q ps1]; [done|]. injection E as <- ->.
    destruct ps1 as [|q' ps1]; [done|].
    apply (Hpre (q' :: ps1) ps2); [done..|].
    by apply (proj1 (reached_cons acc p (q' :: ps1) ltac:(done))).
Qed.

Section EnumeratorFacts.

Variable get_product_list : nat -> string -> result product_page.

(** The loop returns a list exactly when the collaborator serves a run of
    pages after which, and not earlier, the count test holds; what it
    returns is everything accumulated, and the number of requests is the
    number of pages. *)
Lemma offer_ids_loop_iff fuel k c acc pl n :
  offer_ids_loop get_product_list fuel k c acc = Some (Ok pl, n) <->
  exists ps,
    ps <> [] /\ (length ps <= fuel)%nat
    /\ served get_product_list k c ps
    /\ stops_at acc ps
    /\ pl = acc ++ all_items ps
    /\ n = (k + length ps)%nat.
Proof.
  revert k c acc. induction fuel as [|fuel IH]; intros k c acc.
  - split; [done|]. intros (ps & Hne & Hlen & _). destruct ps; [done|].
    simpl in Hlen. lia.
  - simpl. destruct (get_product_list k c) as [p|e] eqn:Ep.
    + destruct (Z.eqb_spec (total p) (Z.of_nat (length (acc ++ items p))))
        as [Ht|Ht].
      * split.
        -- intros H. injection H as <- <-. exists [p].
           split; [done|]. split; [simpl; lia|]. split; [by simpl|].
           split; [by apply stops_at_single, reached_single|].
           split; [unfold all_items; simpl; by rewrite app_nil_r|simpl; lia].
        -- intros (ps & Hne & Hlen & Hs & Hstop & -> & ->).
           destruct ps as [|q ps]; [done|]. destruct Hs as [Hq Hs].
           rewrite Ep in Hq. injection Hq as <-.
           destruct ps as [|q' ps].
           ++ unfold all_items. simpl. rewrite app_nil_r. do 3 f_equal. lia.
           ++ exfalso. apply stops_at_cons in Hstop as [Hfirst _]; [|done].
              by apply Hfirst, reached_single.
      * rewrite IH. split.
        -- intros (ps & Hne & Hlen & Hs & Hstop & -> & ->).
           exists (p :: ps). split; [done|]. split; [simpl; lia|].
           split; [by split|]. split.
           ++ apply stops_at_cons; [done|]. split; [|done].
              by rewrite reached_single.
           ++ split; [|simpl; lia].
              unfold all_items. simpl. by rewrite app_assoc.
        -- intros (ps & Hne & Hlen & Hs & Hstop & -> & ->).
           destruct ps as [|q ps]; [done|]. destruct Hs as [Hq Hs].
           rewrite Ep in Hq. injection Hq as <-.
           destruct ps as [|q' ps].
           ++ exfalso. apply Ht. apply reached_single.
              exact (proj1 (stops_at_single acc p) Hstop).
           ++ exists (q' :: ps). split; [done|]. split; [simpl in *; lia|].
              split; [done|]. apply stops_at_cons in Hstop as [_ Hstop]; [|done].
              split; [done|]. split; [|simpl; lia].
              unfold all_items. simpl. by rewrite !app_assoc.
    + split; [done|]. intros (ps & Hne & _ & Hs & _).
      destruct ps as [|q ps]; [done|]. destruct Hs as [Hq _]. congruence.
Qed.

(** When the collaborator always answers and the count test never holds,
    no number of requests is enough. *)
Lemma offer_ids_loop_diverges fuel k c acc :
  (forall k c, is_ok (get_product_list k c) = true) ->
  (forall ps, ps <> [] -> served get_product_list k c ps -> ~ reached acc ps) ->
  offer_ids_loop get_product_list fuel k c acc = None.
Proof.
  intros Htotal. revert k c acc.
  induction fuel as [|fuel IH]; intros k c acc Hnever; [done|].
  simpl. specialize (Htotal k c) as Hk.
  destruct (get_product_list k c) as [p|e] eqn:Ep; [|done].
  destruct (Z.eqb_spec (total p) (Z.of_nat (length (acc ++ items p))))
    as [Ht|Ht].
  - exfalso. apply (Hnever [p]); [done|by simpl|by apply reached_single].
  - apply IH. intros ps Hne Hs Hr.
    apply (Hnever (p :: ps)); [done|by split|by apply reached_cons].
Qed.

End EnumeratorFacts.

Lemma get_offer_ids_iff (get_product_list : nat -> string -> result product_page)
    (fuel : nat) (ids : list string) (n : nat) :
  get_offer_ids get_product_list fuel = Some (Ok ids, n) <->
  exists ps,
    ps <> [] /\ (length ps <= fuel)%nat
    /\ served get_product_list 0 "" ps
    /\ stops_at [] ps
    /\ ids = map offer_id (all_items ps)
    /\ n = length ps.
Proof.
  unfold get_offer_ids. split.
  - destruct (offer_ids_loop get_product_list fuel 0 "" [])
      as [[[pl|e] n']|] eqn:E; [|done..].
    intros H. injection H as <- <-.
    apply offer_ids_loop_iff in E as (ps & ? & ? & ? & ? & -> & ->).
    by exists ps.
  - intros (ps & Hne & Hlen & Hs & Hstop & -> & ->).
    assert (offer_ids_loop get_product_list fuel 0 "" []
            = Some (Ok (all_items ps), length ps)) as ->; [|done].
    apply offer_ids_loop_iff. by exists ps.
Qed.

Lemma get_offer_ids_diverges (get_product_list : nat -> string -> result product_page) :
  (forall k c, is_ok (get_product_list k c) = true) ->
  (forall ps, ps <> [] -> served get_product_list 0 "" ps -> ~ reached [] ps) ->
  forall fuel, get_offer_ids get_product_list fuel = None.
Proof.
  intros Htotal Hnever fuel. unfold get_offer_ids.
  by rewrite offer_ids_loop_diverges.
Qed.

(** The three-page collaborator. *)
Lemma mock_run (m : nat) :
  get_offer_ids mock_listing (3 + m)
  = Some (Ok (map offer_id (mock_items 0 2250)), 3%nat).
Proof. vm_compute. reflexivity. Qed.

Lemma mock_items_unique (from count : nat) :
  NoDup (map offer_id (mock_items from count)).
Proof.
  unfold mock_items. rewrite map_map.
  assert (Inj eq eq
            (fun i => offer_id (Product (Z.of_nat i) (Py.str (PyInt (Z.of_nat i))))))
    as Hinj.
  { intros a b Hab. cbn [offer_id] in Hab.
    apply str_int_inj in Hab. lia. }
  apply (NoDup_fmap_2 _). apply NoDup_seq.
Qed.

Lemma stalled_never_reached (acc : list product) (k : nat) (c : string)
    (ps : list product_page) :
  ps <> [] -> served stalled_listing k c ps -> ~ reached [] ps.
Proof.
  intros Hne Hs Hr.
  assert (all_items ps = [] /\ forall p, last ps = Some p -> total p = 1)
    as [Hitems Hlast].
  { clear Hne Hr. revert k c Hs.
    induction ps as [|p ps IH]; intros k c Hs; [done|].
    destruct Hs as [Hp Hs]. injection Hp as <-.
    destruct (IH _ _ Hs) as [IH1 IH2]. split.
    - unfold all_items in *. simpl. exact IH1.
    - destruct ps as [|q ps]; [|exact IH2].
      intros p Hp. by injection Hp as <-. }
  unfold reached in Hr. rewrite Hitems in Hr.
  destruct (last ps) as [p|] eqn:El; [|done].
  rewrite (Hlast p eq_refl) in Hr. done.
Qed.

(** C5.  [get_offer_ids] starts with the empty cursor and no item, calls
    the listing collaborator with the cursor of the previous page, and
    returns exactly when the accumulated item count equals the total of the
    page just read, and at the first page where it does; it returns the
    offer ids of every accumulated item.  Against the collaborator serving
    pages of 1000, 1000 and 250 items with total 2250 it returns after
    exactly 3 requests (2 are not enough) with 2250 distinct offer ids.
    Against a collaborator that always answers and never makes the count
    reach the total, it does not return, however many requests are
    allowed. *)
Theorem get_offer_ids_spec :
  (forall (get_product_list : nat -> string -> result product_page)
          (fuel : nat) (ids : list string) (n : nat),
      get_offer_ids get_product_list fuel = Some (Ok ids, n) <->
      exists ps,
        ps <> [] /\ (length ps <= fuel)%nat
        /\ served get_product_list 0 "" ps
        /\ stops_at [] ps
        /\ ids = map offer_id (all_items ps)
        /\ n = length ps)
  /\ (forall m : nat,
        get_offer_ids mock_listing (3 + m)
        = Some (Ok (map offer_id (mock_items 0 2250)), 3%nat))
  /\ get_offer_ids mock_listing 2 = None
  /\ length (map offer_id (mock_items 0 2250)) = 2250%nat
  /\ NoDup (map offer_id (mock_items 0 2250))
  /\ (forall get_product_list : nat -> string -> result product_page,
        (forall k c, is_ok (get_product_list k c) = true) ->
        (forall ps, ps <> [] -> served get_product_list 0 "" ps -> ~ reached [] ps) ->
        forall fuel, get_offer_ids get_product_list fuel = None).
Proof.
  split; [exact get_offer_ids_iff|].
  split; [exact mock_run|].
  split; [by vm_compute|].
  split; [by vm_compute|].
  split; [exact (mock_items_unique 0 2250)|].
  exact get_offer_ids_diverges.
Qed.

Lemma get_offer_ids_spec_witness :
  (forall k c, is_ok (stalled_listing k c) = true)
  /\ (forall ps, ps <> [] -> served stalled_listing 0 "" ps -> ~ reached [] ps)
  /\ get_offer_ids stalled_listing 5 = None.
Proof.
  assert (H1 : forall k c, is_ok (stalled_listing k c) = true)
    by (intros k c; reflexivity).
  assert (H2 : forall ps, ps <> [] -> served stalled_listing 0 "" ps
                          -> ~ reached [] ps)
    by (intros ps; apply (stalled_never_reached [] 0 "")).
  split; [exact H1|]. split; [exact H2|].
  exact (proj2 (proj2 (proj2 (proj2 (proj2 get_offer_ids_spec))))
           stalled_listing H1 H2 5%nat).
Defined.

Lemma parse_only_matched_witness :
  let good := row (PyStr "A") (PyStr "5") (PyStr "100.00 руб.") in
  let bad := row (PyStr "A") (PyStr "abc") PyNone in
  let stray := row (PyStr "Z") (PyStr "abc") PyNone in
  NoDup ["A"]
  /\ (code_of stray ∉ ["A"])
  /\ is_ok (fst (create_stocks [bad; good] ["A"])) = false
  /\ create_stocks ([good] ++ stray :: [good]) ["A"]
     = create_stocks ([good] ++ [good]) ["A"]
  /\ create_prices ([good] ++ stray :: [good]) ["A"]
     = create_prices ([good] ++ [good]) ["A"].
Proof.
  intros good bad stray.
  assert (Hnd : NoDup ["A"]) by (apply (bool_decide_unpack _); vm_compute; exact I).
  assert (Hout : code_of stray ∉ ["A"])
    by (apply (bool_decide_unpack _); vm_compute; exact I).
  destruct parse_only_matched as (_ & _ & Hset & _ & Hframe).
  split; [exact Hnd|]. split; [exact Hout|]. split.
  - apply (Hset [bad; good] ["A"] Hnd). exists [], bad, [good].
    split; [reflexivity|]. split.
    + apply (bool_decide_unpack _). vm_compute. exact I.
    + split; [|reflexivity]. intros w' Hw'. by apply elem_of_nil in Hw'.
  - exact (Hframe [good] stray [good] ["A"] Hout).
Defined.

(** * Further properties of the code *)

(** ** Cells of other types, missing cells *)

Lemma split_nonempty (sep : ascii) (s : string) : Py.split sep s <> [].
Proof. by destruct (split_head sep s) as [tl ->]. Qed.

Lemma price_conversion_fails (v : pyval) (e : exn) :
  price_conversion v = Raise e <->
  e = AttributeError /\ forall s, v <> PyStr s.
Proof.
  destruct v as [|z|s|o].
  - simpl. split; [intros [= <-]; by split|by intros [-> _]].
  - simpl. split; [intros [= <-]; by split|by intros [-> _]].
  - rewrite (price_conversion_str s). split; [done|].
    intros [_ H]. by destruct (H s).
  - simpl. split; [intros [= <-]; by split|by intros [-> _]].
Qed.

(** X1.  [create_prices] raises exactly when some row whose code is among
    the offer ids has a price cell that is not a string (a missing cell
    reads as [None]), and then always [AttributeError]; a string price never
    makes it fail, whatever it contains. *)
Theorem create_prices_fails_on_non_string (ws : list watch) (ids : list string)
    (e : exn) :
  create_prices ws ids = Raise e <->
  e = AttributeError
  /\ exists w, w ∈ ws /\ code_of w ∈ ids /\ forall s, get w Tsena <> PyStr s.
Proof.
  rewrite create_prices_collect. split.
  - intros H. apply collect_raise in H as (w & Hw & He).
    apply list_elem_of_filter in Hw as [Hin Hw].
    unfold price_entry_of in He.
    destruct (price_conversion (get w Tsena)) as [p|e'] eqn:Ep; [done|].
    injection He as ->. apply price_conversion_fails in Ep as [-> Hns].
    split; [done|]. by exists w.
  - intros [-> (w & Hw & Hin & Hns)].
    destruct (collect (map price_entry_of
                (filter (fun w => code_of w ∈ ids) ws))) as [l|e] eqn:E.
    + exfalso. apply collect_Ok in E.
      assert (w ∈ filter (fun w => code_of w ∈ ids) ws) as Hwf
        by (by apply list_elem_of_filter).
      apply list_elem_of_lookup in Hwf as [i Hi].
      destruct (Forall2_lookup_l _ _ _ _ _ E Hi) as (p & _ & Hp).
      unfold price_entry_of in Hp.
      destruct (price_conversion (get w Tsena)) as [q|e'] eqn:Eq; [|done].
      destruct (get w Tsena) as [| |s|o]; try done. by destruct (Hns s).
    + f_equal. apply collect_raise in E as (w' & _ & He).
      unfold price_entry_of in He.
      destruct (price_conversion (get w' Tsena)) as [q|e'] eqn:Eq; [done|].
      injection He as ->. by apply price_conversion_fails in Eq as [-> _].
Qed.




(** ** Shape of a converted price *)

Lemma keep_digits_digits (s : string) :
  Forall (fun c => Py.is_digit c = true)
         (list_ascii_of_string (PriceSpec.keep_digits s)).
Proof.
  induction s as [|c s IH]; simpl; [constructor|].
  rewrite <- is_digit_spec.
  destruct (Py.is_digit c) eqn:Ec; [|done]. simpl. by constructor.
Qed.

Lemma keep_digits_length (s : string) :
  (String.length (PriceSpec.keep_digits s) <= String.length s)%nat.
Proof.
  induction s as [|c s IH]; simpl; [done|].
  destruct (bool_decide _); simpl; lia.
Qed.

Lemma before_first_length (sep : ascii) (s : string) :
  (String.length (PriceSpec.before_first sep s) <= String.length s)%nat.
Proof.
  induction s as [|c s IH]; simpl; [done|].
  destruct (Ascii.eqb c sep); simpl; lia.
Qed.

Lemma digits_fixed (s : string) :
  Forall (fun c => Py.is_digit c = true) (list_ascii_of_string s) ->
  PriceSpec.parse_price s = s.
Proof.
  unfold PriceSpec.parse_price.
  induction s as [|c s IH]; simpl; [done|].
  intros H. apply Forall_cons in H as [Hc Hs].
  destruct (Ascii.eqb_spec c ".") as [->|_]; [done|].
  simpl. rewrite <- is_digit_spec, Hc. f_equal. by apply IH.
Qed.

(** X3.  On every string [price_conversion] returns a string of ASCII
    digits only (signs, separators and the fraction are dropped, nothing is
    rounded), no longer than the input, and converting the result again
    leaves it unchanged. *)
Theorem price_conversion_digits (s r : string) :
  price_conversion (PyStr s) = Ok r ->
  Forall (fun c => Py.is_digit c = true) (list_ascii_of_string r)
  /\ (String.length r <= String.length s)%nat
  /\ price_conversion (PyStr r) = Ok r.
Proof.
  rewrite price_conversion_str. intros [= <-].
  pose proof (keep_digits_digits (PriceSpec.before_first "." s)) as Hd.
  split; [exact Hd|]. split.
  - unfold PriceSpec.parse_price.
    pose proof (keep_digits_length (PriceSpec.before_first "." s)).
    pose proof (before_first_length "." s). lia.
  - rewrite price_conversion_str. f_equal. by apply digits_fixed.
Qed.

Lemma price_conversion_digits_witness :
  price_conversion (PyStr "-1 250.75 руб.") = Ok "1250"
  /\ Forall (fun c => Py.is_digit c = true) (list_ascii_of_string "1250")
  /\ (String.length "1250" <= String.length "-1 250.75 руб.")%nat
  /\ price_conversion (PyStr "1250") = Ok "1250".
Proof.
  assert (H : price_conversion (PyStr "-1 250.75 руб.") = Ok "1250")
    by reflexivity.
  split; [exact H|].
  exact (price_conversion_digits "-1 250.75 руб." "1250" H).
Defined.

Lemma create_prices_fails_on_non_string_witness :
  let ws := [row (PyStr "A") (PyInt 3) (PyStr "free");
             row (PyStr "B") (PyInt 3) (PyInt 100)] in
  create_prices ws ["A"; "B"] = Raise AttributeError
  /\ (AttributeError = AttributeError
      /\ exists w, w ∈ ws /\ code_of w ∈ ["A"; "B"]
                   /\ forall s, get w Tsena <> PyStr s).
Proof.
  intros ws.
  assert (H : create_prices ws ["A"; "B"] = Raise AttributeError) by reflexivity.
  split; [exact H|].
  exact (proj1 (create_prices_fails_on_non_string ws ["A"; "B"] AttributeError) H).
Defined.

(** ** The caller's list, in closed form *)

Lemma filter_ext_in {A} (P Q : A -> Prop) `{forall x, Decision (P x)}
    `{forall x, Decision (Q x)} (l : list A) :
  (forall x, x ∈ l -> P x <-> Q x) -> filter P l = filter Q l.
Proof.
  induction l as [|a l IH]; intros Hext; [done|].
  rewrite !filter_cons.
  assert (P a <-> Q a) as Ha by (apply Hext; left).
  rewrite IH by (intros x Hx; apply Hext; by right).
  destruct (decide (P a)), (decide (Q a)); tauto || done.
Qed.

Lemma filter_all {A} (P : A -> Prop) `{forall x, Decision (P x)} (l : list A) :
  (forall x, x ∈ l -> P x) -> filter P l = l.
Proof.
  induction l as [|a l IH]; intros Hall; [done|].
  rewrite filter_cons, decide_True by (apply Hall; left).
  f_equal. apply IH. intros x Hx. apply Hall. by right.
Qed.

(** In a list without duplicates [remove] is a filter. *)
Lemma remove_filter (c : string) (l : list string) :
  NoDup l -> c ∈ l -> Py.remove c l = Ok (filter (fun o => o <> c) l).
Proof.
  induction l as [|y l IH]; intros Hnd Hc; [by apply elem_of_nil in Hc|].
  apply NoDup_cons in Hnd as [Hy Hnd]. simpl. rewrite filter_cons.
  destruct (decide (y = c)) as [->|Hne].
  - rewrite decide_False by (by intros H; apply H).
    f_equal. symmetry. apply filter_all. intros x Hx ->. done.
  - rewrite decide_True by done.
    apply elem_of_cons in Hc as [->|Hc]; [done|].
    by rewrite (IH Hnd Hc).
Qed.

Lemma remaining_filter (ws : list watch) (ids : list string) :
  NoDup ids ->
  remaining ws ids = filter (fun o => o ∉ map code_of ws) ids.
Proof.
  revert ids. induction ws as [|w rest IH]; intros ids Hnd.
  - simpl. symmetry. apply filter_all. intros x _ Hx. by apply elem_of_nil in Hx.
  - destruct (decide (code_of w ∈ ids)) as [Hin|Hout].
    + pose proof (remove_filter _ _ Hnd Hin) as Hr.
      rewrite (remaining_hit _ _ _ _ Hin Hr).
      destruct (remove_NoDup _ _ _ Hr Hnd) as [Hnd1 _].
      rewrite (IH _ Hnd1), list_filter_filter.
      apply filter_ext_in. intros o _. simpl. rewrite not_elem_of_cons. tauto.
    + rewrite remaining_skip by done. rewrite (IH _ Hnd).
      apply filter_ext_in. intros o Ho. simpl. rewrite not_elem_of_cons.
      split; [|tauto]. intros H. split; [|done]. by intros ->.
Qed.

(** X4.  On a set of offer ids, when [create_stocks] returns, the caller's
    list holds exactly the ids that no row of the feed carries, in their
    original order, and the returned list ends with one zero entry for each
    of them, in that order. *)
Theorem create_stocks_leaves_unmatched (ws : list watch) (ids : list string)
    (stocks : list stock_update) (ids' : list string) :
  NoDup ids ->
  create_stocks ws ids = (Ok stocks, ids') ->
  ids' = filter (fun o => o ∉ map code_of ws) ids
  /\ drop (length stocks - length ids') stocks
     = map (fun o => StockUpdate o 0) ids'.
Proof.
  intros Hnd H. destruct (create_stocks_Ok _ _ _ _ H) as (s & Hs & ->).
  split.
  - rewrite (stocks_scan_remaining _ _ _ _ _ Hs). by apply remaining_filter.
  - rewrite length_app, length_map.
    replace (length s + length ids' - length ids')%nat with (length s) by lia.
    by rewrite drop_app_length.
Qed.

Lemma create_stocks_leaves_unmatched_witness :
  let ws := [row (PyStr "C") (PyInt 4) PyNone; row (PyStr "A") (PyInt 2) PyNone] in
  let ids := ["A"; "B"; "C"; "D"] in
  exists stocks ids',
    NoDup ids
    /\ create_stocks ws ids = (Ok stocks, ids')
    /\ ids' = filter (fun o => o ∉ map code_of ws) ids
    /\ drop (length stocks - length ids') stocks
       = map (fun o => StockUpdate o 0) ids'.
Proof.
  intros ws ids.
  exists [StockUpdate "C" 4; StockUpdate "A" 2; StockUpdate "B" 0; StockUpdate "D" 0],
    ["B"; "D"].
  assert (Hnd : NoDup ids) by (apply (bool_decide_unpack _); vm_compute; exact I).
  assert (H : create_stocks ws ids
              = (Ok [StockUpdate "C" 4; StockUpdate "A" 2;
                     StockUpdate "B" 0; StockUpdate "D" 0], ["B"; "D"]))
    by reflexivity.
  split; [exact Hnd|]. split; [exact H|].
  exact (create_stocks_leaves_unmatched ws ids _ _ Hnd H).
Defined.

(** ** The stock list, in closed form *)

Lemma stocks_scan_first_rows (ids : list string) (ws : list watch)
    (acc : list stock_update) (seen : list string) :
  NoDup ids ->
  fst (stocks_scan ws acc (filter (fun o => o ∉ seen) ids)) =
  match collect (map stock_entry_of
                   (filter (fun w => code_of w ∈ ids) (first_rows seen ws))) with
  | Ok m => Ok (acc ++ m)
  | Raise e => Raise e
  end.
Proof.
  intros Hnd. revert acc seen.
  induction ws as [|w rest IH]; intros acc seen.
  - simpl. by rewrite app_nil_r.
  - simpl first_rows.
    destruct (decide (code_of w ∈ seen)) as [Hseen|Hnew].
    + rewrite stocks_scan_skip; [apply IH|].
      intros Hin. apply list_elem_of_filter in Hin as [Hn _]. done.
    + rewrite filter_cons.
      destruct (decide (code_of w ∈ ids)) as [Hin|Hout].
      * assert (code_of w ∈ filter (fun o => o ∉ seen) ids) as Hcur
          by (by apply list_elem_of_filter).
        destruct (stocks_scan_hit w rest acc _ Hcur) as (ids1 & Hr & ->).
        rewrite remove_filter in Hr by (by try apply NoDup_filter).
        injection Hr as <-. simpl. unfold stock_entry_of at 1.
        destruct (stock_of (get w Kolichestvo)) as [v|e]; [|done].
        rewrite list_filter_filter.
        rewrite (filter_ext_in _ (fun o => o ∉ code_of w :: seen)).
        -- rewrite IH. destruct (collect _); [|done]. by rewrite <- app_assoc.
        -- intros o _. rewrite not_elem_of_cons. tauto.
      * rewrite stocks_scan_skip.
        -- rewrite (filter_ext_in _ (fun o => o ∉ code_of w :: seen)); [apply IH|].
           intros o Ho. rewrite not_elem_of_cons.
           split; [|tauto]. intros H. split; [|done]. by intros ->.
        -- intros Hcur. apply list_elem_of_filter in Hcur as [_ Hcur]. done.
Qed.

(** X5.  On a set of offer ids, [create_stocks] is: the entries of the rows
    that are the first with their code and whose code is an offer id, in
    scan order, followed by a zero entry for every offer id that no row
    carries, in catalogue order; it raises the exception of the first such
    row whose quantity does not parse. *)
Theorem create_stocks_closed_form (ws : list watch) (ids : list string) :
  NoDup ids ->
  fst (create_stocks ws ids) =
  match collect (map stock_entry_of
                   (filter (fun w => code_of w ∈ ids) (first_rows [] ws))) with
  | Ok m =>
      Ok (m ++ map (fun o => StockUpdate o 0)
                (filter (fun o => o ∉ map code_of ws) ids))
  | Raise e => Raise e
  end.
Proof.
  intros Hnd.
  pose proof (stocks_scan_first_rows ids ws [] [] Hnd) as H.
  rewrite (filter_all (fun o => o ∉ [])) in H
    by (intros x _ Hx; by apply elem_of_nil in Hx).
  simpl in H. unfold create_stocks.
  destruct (stocks_scan ws [] ids) as [[s|e] ids1] eqn:E; simpl in H.
  - destruct (collect _) as [m|e]; [|done]. injection H as ->. simpl.
    rewrite (stocks_scan_remaining _ _ _ _ _ E). by rewrite remaining_filter.
  - by destruct (collect _).
Qed.

Lemma create_stocks_closed_form_witness :
  let ws := [row (PyStr "C") (PyInt 4) PyNone; row (PyStr "C") (PyStr "?") PyNone;
             row (PyStr "A") (PyStr ">10") PyNone] in
  let ids := ["A"; "B"; "C"] in
  NoDup ids
  /\ fst (create_stocks ws ids)
     = Ok [StockUpdate "C" 4; StockUpdate "A" 100; StockUpdate "B" 0].
Proof.
  intros ws ids.
  assert (Hnd : NoDup ids) by (apply (bool_decide_unpack _); vm_compute; exact I).
  split; [exact Hnd|].
  rewrite (create_stocks_closed_form ws ids Hnd). reflexivity.
Defined.

(** ** What a call leaves in the caller's list *)

Lemma create_stocks_frame_witness :
  let ws := [row (PyStr "Z") (PyStr "abc") PyNone] in
  create_stocks ws ["A"; "B"] = (Ok [StockUpdate "A" 0; StockUpdate "B" 0], ["A"; "B"])
  /\ (["A"; "B"] = ["A"; "B"] <-> forall w, w ∈ ws -> code_of w ∉ ["A"; "B"]).
Proof.
  intros ws.
  assert (H : create_stocks ws ["A"; "B"]
              = (Ok [StockUpdate "A" 0; StockUpdate "B" 0], ["A"; "B"]))
    by reflexivity.
  split; [exact H|]. exact (create_stocks_frame ws ["A"; "B"] _ _ H).
Defined.

(** X7.  When the quantity of a matched row does not parse, [create_stocks]
    raises the parser's exception and returns no list, but the caller's
    list has already lost every id matched by the rows before: it is left
    as a successful run on those rows alone would leave it. *)
Theorem create_stocks_failure_state (pre : list watch) (w : watch)
    (post : list watch) (ids : list string) (stocks : list stock_update)
    (ids1 : list string) (e : exn) :
  create_stocks pre ids = (Ok stocks, ids1) ->
  code_of w ∈ ids1 ->
  stock_of (get w Kolichestvo) = Raise e ->
  create_stocks (pre ++ w :: post) ids = (Raise e, ids1).
Proof.
  intros Hpre Hin He.
  destruct (create_stocks_Ok _ _ _ _ Hpre) as (s & Hs & _).
  unfold create_stocks. rewrite stocks_scan_app, Hs.
  destruct (stocks_scan_hit w post s ids1 Hin) as (ids2 & _ & ->).
  by rewrite He.
Qed.

Lemma create_stocks_failure_state_witness :
  let pre := [row (PyStr "A") (PyInt 2) PyNone] in
  let w := row (PyStr "B") (PyStr "many") PyNone in
  let post := [row (PyStr "C") (PyInt 5) PyNone] in
  create_stocks pre ["A"; "B"; "C"]
  = (Ok [StockUpdate "A" 2; StockUpdate "B" 0; StockUpdate "C" 0], ["B"; "C"])
  /\ code_of w ∈ ["B"; "C"]
  /\ stock_of (get w Kolichestvo) = Raise ValueError
  /\ create_stocks (pre ++ w :: post) ["A"; "B"; "C"] = (Raise ValueError, ["B"; "C"]).
Proof.
  intros pre w post.
  assert (H1 : create_stocks pre ["A"; "B"; "C"]
               = (Ok [StockUpdate "A" 2; StockUpdate "B" 0; StockUpdate "C" 0],
                  ["B"; "C"])) by reflexivity.
  assert (H2 : code_of w ∈ ["B"; "C"])
    by (apply (bool_decide_unpack _); vm_compute; exact I).
  assert (H3 : stock_of (get w Kolichestvo) = Raise ValueError) by reflexivity.
  split; [exact H1|]. split; [exact H2|]. split; [exact H3|].
  exact (create_stocks_failure_state pre w post _ _ _ _ H1 H2 H3).
Defined.

Lemma stocks_then_prices_empty_witness :
  let ws := [row (PyStr "A") (PyInt 2) (PyStr "10.00");
             row (PyStr "A") (PyInt 3) (PyStr "20.00");
             row (PyStr "B") (PyInt 4) (PyStr "30.00")] in
  NoDup ["A"; "B"]
  /\ create_stocks ws ["A"; "B"] = (Ok [StockUpdate "A" 2; StockUpdate "B" 4], [])
  /\ stocks_then_prices ws ["A"; "B"]
     = (Ok [StockUpdate "A" 2; StockUpdate "B" 4], Ok []).
Proof.
  intros ws.
  assert (Hnd : NoDup ["A"; "B"])
    by (apply (bool_decide_unpack _); vm_compute; exact I).
  assert (H : create_stocks ws ["A"; "B"]
              = (Ok [StockUpdate "A" 2; StockUpdate "B" 4], [])) by reflexivity.
  split; [exact Hnd|]. split; [exact H|].
  exact (stocks_then_prices_empty ws ["A"; "B"] _ _ Hnd H).
Defined.

(** ** How [create_prices] depends on its arguments *)

(** X9.  [create_prices] reads [offer_ids] through membership only: two
    lists with the same members, in any order and with any repetitions,
    give the same outcome. *)
Theorem create_prices_membership (ws : list watch) (ids ids' : list string) :
  (forall o, o ∈ ids <-> o ∈ ids') ->
  create_prices ws ids = create_prices ws ids'.
Proof.
  intros Hsame. rewrite !create_prices_collect.
  do 2 f_equal. apply filter_ext_in. intros w _. apply Hsame.
Qed.

Lemma create_prices_membership_witness :
  let ws := [row (PyStr "A") (PyInt 2) (PyStr "10.00");
             row (PyStr "B") (PyInt 4) (PyStr "30.00")] in
  (forall o, o ∈ ["A"; "B"] <-> o ∈ ["B"; "A"; "B"])
  /\ create_prices ws ["A"; "B"] = create_prices ws ["B"; "A"; "B"].
Proof.
  intros ws.
  assert (H : forall o, o ∈ ["A"; "B"] <-> o ∈ ["B"; "A"; "B"]).
  { intros o. rewrite !elem_of_cons, !elem_of_nil. tauto. }
  split; [exact H|]. exact (create_prices_membership ws _ _ H).
Defined.

Lemma prices_scan_app ws1 ws2 acc ids :
  prices_scan (ws1 ++ ws2) acc ids =
  match prices_scan ws1 acc ids with
  | Ok p1 => prices_scan ws2 p1 ids
  | Raise e => Raise e
  end.
Proof.
  revert acc. induction ws1 as [|w rest IH]; intros acc; [done|].
  simpl. destruct (Py.contains (Py.str (get w Kod)) ids); [|apply IH].
  destruct (price_conversion (get w Tsena)); [apply IH|done].
Qed.

(** X10.  The prices of two feeds put end to end are the prices of the
    first followed by those of the second; the exception, if any, is the
    first feed's, else the second's.  (The stock list has no such law: the
    first feed consumes offer ids.) *)
Theorem create_prices_app (ws1 ws2 : list watch) (ids : list string) :
  create_prices (ws1 ++ ws2) ids =
  match create_prices ws1 ids with
  | Ok p1 =>
      match create_prices ws2 ids with
      | Ok p2 => Ok (p1 ++ p2)
      | Raise e => Raise e
      end
  | Raise e => Raise e
  end.
Proof.
  unfold create_prices. rewrite prices_scan_app.
  destruct (prices_scan ws1 [] ids) as [p1|e]; [|done].
  rewrite (prices_scan_collect ws2 p1), (prices_scan_collect ws2 []).
  by destruct (collect _).
Qed.

(** ** More on the batcher *)

Lemma chunk_count_ceil (len : nat) (n : Z) :
  0 < n ->
  Z.of_nat (chunk_count len n) = (Z.of_nat len + n - 1) / n.
Proof.
  intros Hn. unfold chunk_count.
  destruct (Z.ltb_spec 0 (Z.of_nat len)) as [Hpos|H0].
  - replace (Z.of_nat len + n - 1) with ((Z.of_nat len - 0 - 1) + 1 * n) by lia.
    rewrite Z.div_add by lia.
    assert (0 <= (Z.of_nat len - 0 - 1) / n) by (apply Z.div_pos; lia). lia.
  - replace (Z.of_nat len) with 0 by lia.
    rewrite Z.div_small by lia. done.
Qed.

(** X11.  For a size [n > 0], [divide] yields ceil(len / n) chunks: as many
    requests as the drivers will make for a list of [len] updates. *)
Theorem divide_count {A} (lst : list A) (n : Z) :
  0 < n ->
  exists chunks : list (list A),
    divide lst n = Ok chunks
    /\ Z.of_nat (length chunks) = (Z.of_nat (length lst) + n - 1) / n.
Proof.
  intros Hn. eexists. split; [apply (divide_pos lst n Hn)|].
  rewrite length_map, length_seq. by apply chunk_count_ceil.
Qed.

Lemma divide_count_witness :
  0 < 100
  /\ exists chunks : list (list nat),
       divide (seq 0 250) 100 = Ok chunks
       /\ Z.of_nat (length chunks) = (Z.of_nat (length (seq 0 250)) + 100 - 1) / 100.
Proof.
  assert (H : 0 < 100) by lia.
  split; [exact H|]. exact (divide_count (seq 0 250) 100 H).
Defined.

(** X12.  For a size [n > 0], the element at index [i] of the list is the
    element at index [i mod n] of chunk number [i / n]: nothing is lost,
    repeated or moved. *)
Theorem divide_lookup {A} (lst : list A) (n : Z) (i : nat) (x : A) :
  0 < n ->
  lst !! i = Some x ->
  exists (chunks : list (list A)) (c : list A),
    divide lst n = Ok chunks
    /\ chunks !! (i / Z.to_nat n)%nat = Some c
    /\ c !! (i mod Z.to_nat n)%nat = Some x.
Proof.
  intros Hn Hi. eexists. eexists.
  split; [apply (divide_pos lst n Hn)|].
  set (sz := Z.to_nat n). assert (sz <> 0%nat) as Hsz by lia.
  pose proof (lookup_lt_Some _ _ _ Hi) as Hlt.
  destruct (chunk_count_bounds (length lst) n Hn) as [_ Hb].
  specialize (Hb ltac:(lia)).
  assert (i / sz < chunk_count (length lst) n)%nat as Hk.
  { apply Nat.Div0.div_lt_upper_bound.
    assert (Z.of_nat sz = n) as Hszn by (unfold sz; lia).
    apply Nat2Z.inj_lt. rewrite Nat2Z.inj_mul, Hszn. lia. }
  split.
  - rewrite list_lookup_fmap, (lookup_seq_lt 0 _ _ Hk). simpl. reflexivity.
  - rewrite lookup_take_lt by (by apply Nat.mod_upper_bound).
    rewrite lookup_drop, <- Hi. f_equal.
    rewrite Nat.mul_comm. symmetry. apply Nat.div_mod_eq.
Qed.

Lemma divide_lookup_witness :
  0 < 3
  /\ [10; 11; 12; 13; 14; 15; 16] !! 5%nat = Some 15
  /\ exists (chunks : list (list Z)) (c : list Z),
       divide [10; 11; 12; 13; 14; 15; 16] 3 = Ok chunks
       /\ chunks !! (5 / Z.to_nat 3)%nat = Some c
       /\ c !! (5 mod Z.to_nat 3)%nat = Some 15.
Proof.
  assert (H : 0 < 3) by lia.
  assert (Hi : [10; 11; 12; 13; 14; 15; 16] !! 5%nat = Some 15) by reflexivity.
  split; [exact H|]. split; [exact Hi|].
  exact (divide_lookup [10; 11; 12; 13; 14; 15; 16] 3 5 15 H Hi).
Defined.

(** ** More on the catalogue enumerator *)

Lemma cursor_after_cons c p ps :
  cursor_after c (p :: ps) = cursor_after (last_id p) ps.
Proof.
  unfold cursor_after. destruct ps as [|q ps]; [done|].
  change (last (p :: q :: ps)) with (last (q :: ps)).
  destruct (last (q :: ps)) eqn:E; [done|]. by apply last_None in E.
Qed.

Lemma never_reached_cons acc p ps :
  never_reached acc (p :: ps) <->
  ~ reached acc [p] /\ never_reached (acc ++ items p) ps.
Proof.
  split.
  - intros H. split; [by apply (H [p] ps)|].
    intros ps1 ps2 -> Hn1 Hr. apply (H (p :: ps1) ps2); [done..|].
    by apply reached_cons.
  - intros [Hfirst H] ps1 ps2 E Hn1 Hr.
    destruct ps1 as [|q ps1]; [done|]. injection E as <- ->.
    destruct ps1 as [|q' ps1]; [done|].
    apply (H (q' :: ps1) ps2); [done..|].
    by apply (proj1 (reached_cons acc p (q' :: ps1) ltac:(done))).
Qed.

Section EnumeratorFailures.

Variable get_product_list : nat -> string -> result product_page.

Lemma offer_ids_loop_raise fuel k c acc e n :
  offer_ids_loop get_product_list fuel k c acc = Some (Raise e, n) <->
  exists ps,
    (length ps < fuel)%nat
    /\ served get_product_list k c ps
    /\ never_reached acc ps
    /\ get_product_list (k + length ps) (cursor_after c ps) = Raise e
    /\ n = S (k + length ps).
Proof.
  revert k c acc. induction fuel as [|fuel IH]; intros k c acc.
  - split; [done|]. intros (ps & Hlen & _). lia.
  - simpl. destruct (get_product_list k c) as [p|e'] eqn:Ep.
    + destruct (Z.eqb_spec (total p) (Z.of_nat (length (acc ++ items p))))
        as [Ht|Ht].
      * split; [done|]. intros (ps & Hlen & Hs & Hnever & Hraise & ->).
        destruct ps as [|q ps].
        -- simpl in Hraise. rewrite Nat.add_0_r in Hraise.
           unfold cursor_after in Hraise. simpl in Hraise. congruence.
        -- destruct Hs as [Hq _]. rewrite Ep in Hq. injection Hq as <-.
           apply never_reached_cons in Hnever as [Hfirst _].
           exfalso. by apply Hfirst, reached_single.
      * rewrite IH. split.
        -- intros (ps & Hlen & Hs & Hnever & Hraise & ->).
           exists (p :: ps). split; [simpl; lia|]. split; [by split|].
           split; [apply never_reached_cons; split;
                   [by rewrite reached_single|done]|].
           rewrite cursor_after_cons. simpl length.
           replace (k + S (length ps))%nat with (S k + length ps)%nat by lia.
           done.
        -- intros (ps & Hlen & Hs & Hnever & Hraise & ->).
           destruct ps as [|q ps].
           ++ simpl in Hraise. rewrite Nat.add_0_r in Hraise.
              unfold cursor_after in Hraise. simpl in Hraise. congruence.
           ++ destruct Hs as [Hq Hs]. rewrite Ep in Hq. injection Hq as <-.
              apply never_reached_cons in Hnever as [_ Hnever].
              rewrite cursor_after_cons in Hraise. simpl length in *.
              replace (k + S (length ps))%nat with (S k + length ps)%nat
                in * by lia.
              exists ps. split; [lia|done].
    + split.
      * intros [= <- <-]. exists []. split; [simpl; lia|].
        split; [done|]. split.
        -- intros ps1 ps2 E Hn1. by destruct ps1.
        -- simpl. rewrite Nat.add_0_r. done.
      * intros (ps & Hlen & Hs & _ & Hraise & ->).
        destruct ps as [|q ps].
        -- simpl in Hraise. rewrite Nat.add_0_r in Hraise.
           unfold cursor_after in Hraise. simpl in Hraise.
           rewrite Ep in Hraise. injection Hraise as ->.
           simpl. by rewrite Nat.add_0_r.
        -- destruct Hs as [Hq _]. congruence.
Qed.

End EnumeratorFailures.

(** X13.  [get_offer_ids] raises exactly when a request of the listing
    collaborator raises before the accumulated count has reached the total:
    the pages before it were served in a chain of cursors, the count test
    held after none of them, and the exception is the collaborator's own,
    raised at the request after those pages.  Nothing is retried and no
    partial list is returned. *)
Theorem get_offer_ids_raises
    (get_product_list : nat -> string -> result product_page)
    (fuel : nat) (e : exn) (n : nat) :
  get_offer_ids get_product_list fuel = Some (Raise e, n) <->
  exists ps,
    (length ps < fuel)%nat
    /\ served get_product_list 0 "" ps
    /\ never_reached [] ps
    /\ get_product_list (length ps) (cursor_after "" ps) = Raise e
    /\ n = S (length ps).
Proof.
  unfold get_offer_ids.
  pose proof (offer_ids_loop_raise get_product_list fuel 0 "" [] e n) as H.
  simpl in H. rewrite <- H.
  destruct (offer_ids_loop get_product_list fuel 0 "" []) as [[[pl|e'] n']|];
    split; congruence.
Qed.

(** X14.  When [get_offer_ids] returns, the number of offer ids equals the
    total reported by the last page read, whatever the earlier pages
    reported; items are never dropped or de-duplicated. *)
Theorem get_offer_ids_count
    (get_product_list : nat -> string -> result product_page)
    (fuel : nat) (ids : list string) (n : nat) :
  get_offer_ids get_product_list fuel = Some (Ok ids, n) ->
  exists ps p,
    served get_product_list 0 "" ps
    /\ length ps = n
    /\ last ps = Some p
    /\ Z.of_nat (length ids) = total p
    /\ length ids = length (all_items ps).
Proof.
  intros H. apply get_offer_ids_iff in H as (ps & Hne & _ & Hs & [Hr _] & -> & ->).
  unfold reached in Hr. destruct (last ps) as [p|] eqn:El; [|done].
  exists ps, p. rewrite length_map. simpl in Hr. by rewrite Hr.
Qed.

Lemma get_offer_ids_raises_witness :
  get_offer_ids failing_listing 4 = Some (Raise HTTPError, 2%nat)
  /\ exists ps,
       (length ps < 4)%nat
       /\ served failing_listing 0 "" ps
       /\ never_reached [] ps
       /\ failing_listing (length ps) (cursor_after "" ps) = Raise HTTPError
       /\ 2%nat = S (length ps).
Proof.
  assert (H : get_offer_ids failing_listing 4 = Some (Raise HTTPError, 2%nat))
    by reflexivity.
  split; [exact H|].
  exact (proj1 (get_offer_ids_raises failing_listing 4 HTTPError 2) H).
Defined.

Lemma get_offer_ids_count_witness :
  get_offer_ids two_offers 1 = Some (Ok ["A"; "B"], 1%nat)
  /\ exists ps p,
       served two_offers 0 "" ps
       /\ length ps = 1%nat
       /\ last ps = Some p
       /\ Z.of_nat (length ["A"; "B"]) = total p
       /\ length ["A"; "B"] = length (all_items ps).
Proof.
  assert (H : get_offer_ids two_offers 1 = Some (Ok ["A"; "B"], 1%nat))
    by reflexivity.
  split; [exact H|]. exact (get_offer_ids_count two_offers 1 _ _ H).
Defined.

(** ** The submission loop *)

Lemma submit_each_ok {A} (update : nat -> list A -> result unit) (k : nat)
    (batches calls calls' : list (list A)) (u : unit) :
  submit_each update k batches calls = (Ok u, calls') <->
  calls' = calls ++ batches
  /\ forall i b, batches !! i = Some b -> update (k + i)%nat b = Ok tt.
Proof.
  revert k calls. induction batches as [|b rest IH]; intros k calls; simpl.
  - rewrite app_nil_r. destruct u. split.
    + intros [= <-]. by split.
    + by intros [-> _].
  - destruct (update k b) as [[]|e] eqn:Eb.
    + rewrite IH, <- app_assoc. change ([b] ++ rest) with (b :: rest). split.
      * intros [-> Hall]. split; [done|]. intros [|i] b' Hb'.
        -- injection Hb' as <-. by rewrite Nat.add_0_r.
        -- rewrite <- Nat.add_succ_comm. by apply Hall.
      * intros [-> Hall]. split; [done|]. intros i b' Hb'.
        rewrite Nat.add_succ_comm. by apply Hall.
    + split; [done|]. intros [_ Hall].
      specialize (Hall 0%nat b eq_refl). rewrite Nat.add_0_r in Hall. congruence.
Qed.

Lemma submit_each_raise {A} (update : nat -> list A -> result unit) (k : nat)
    (batches calls calls' : list (list A)) (e : exn) :
  submit_each update k batches calls = (Raise e, calls') <->
  exists j b,
    batches !! j = Some b
    /\ update (k + j)%nat b = Raise e
    /\ (forall i b', (i < j)%nat -> batches !! i = Some b' ->
                     update (k + i)%nat b' = Ok tt)
    /\ calls' = calls ++ take (S j) batches.
Proof.
  revert k calls. induction batches as [|b rest IH]; intros k calls; simpl.
  - split; [done|]. by intros (j & b & Hb & _).
  - destruct (update k b) as [[]|e'] eqn:Eb.
    + rewrite IH. split.
      * intros (j & b' & Hb' & He & Hbefore & ->).
        exists (S j), b'. split; [done|].
        split; [by rewrite <- Nat.add_succ_comm|]. split.
        -- intros [|i] b'' Hi Hb''.
           ++ injection Hb'' as <-. by rewrite Nat.add_0_r.
           ++ rewrite <- Nat.add_succ_comm. apply Hbefore; [lia|done].
        -- by rewrite <- app_assoc.
      * intros (j & b' & Hb' & He & Hbefore & ->).
        destruct j as [|j].
        -- injection Hb' as <-. rewrite Nat.add_0_r in He. congruence.
        -- exists j, b'. split; [done|].
           split; [by rewrite Nat.add_succ_comm|]. split.
           ++ intros i b'' Hi Hb''. rewrite Nat.add_succ_comm.
              apply Hbefore; [lia|done].
           ++ by rewrite <- app_assoc.
    + split.
      * intros [= <- <-]. exists 0%nat, b. split; [done|].
        split; [by rewrite Nat.add_0_r|]. split; [intros i b' Hi; lia|].
        by rewrite take_0.
      * intros (j & b' & Hb' & He & Hbefore & ->).
        destruct j as [|j].
        -- injection Hb' as <-. rewrite Nat.add_0_r in He.
           rewrite Eb in He. injection He as ->. by rewrite take_0.
        -- specialize (Hbefore 0%nat b ltac:(lia) eq_refl).
           rewrite Nat.add_0_r in Hbefore. congruence.
Qed.

(** For a positive size every chunk is non-empty and within the size, and
    the chunks put together are the list. *)
Lemma divide_bounds {A} (lst : list A) (n : Z) :
  0 < n ->
  exists chunks,
    divide lst n = Ok chunks
    /\ concat chunks = lst
    /\ Forall (fun c => 1 <= Z.of_nat (length c) <= n) chunks
    /\ (chunks = [] <-> lst = []).
Proof.
  intros Hn. eexists. split; [apply (divide_pos lst n Hn)|].
  destruct (chunk_count_bounds (length lst) n Hn) as [Hz Hnz].
  set (m := chunk_count (length lst) n) in *.
  split; [|split].
  - apply concat_chunks.
    destruct (decide (length lst = 0%nat)) as [E|E]; [lia|].
    specialize (Hnz E). nia.
  - apply Forall_forall. intros c Hc.
    apply list_elem_of_fmap in Hc as (k & -> & Hk).
    apply elem_of_seq in Hk.
    assert (length lst <> 0%nat) as E by (intros E; specialize (Hz E); lia).
    specialize (Hnz E). rewrite length_take, length_drop. nia.
  - split.
    + intros E. apply (f_equal length) in E.
      rewrite length_map, length_seq in E. simpl in E.
      destruct lst; [done|]. simpl in Hnz.
      specialize (Hnz ltac:(lia)). nia.
    + intros ->. by rewrite (Hz eq_refl).
Qed.

(** ** upload_stocks and upload_prices *)

Section DriverFacts.

Variable get_product_list : nat -> string -> result product_page.
Variable update_stocks : nat -> list stock_update -> result unit.
Variable update_price : nat -> list price_update -> result unit.

(** X15.  When [upload_stocks] returns, every known offer id has been sent
    exactly one stock entry: the batches sent, put together in order, are
    the returned stock list, whose offer ids are those of the catalogue;
    each batch holds between 1 and 100 entries and was accepted; and
    [not_empty] is the sublist of the entries with a non-zero stock. *)
Theorem upload_stocks_sends_all (fuel : nat) (ws : list watch)
    (not_empty stocks : list stock_update) (calls : list (list stock_update)) :
  upload_stocks get_product_list update_stocks fuel ws
  = Some (Ok (not_empty, stocks), calls) ->
  concat calls = stocks
  /\ Forall (fun b => 1 <= Z.of_nat (length b) <= 100) calls
  /\ (forall i b, calls !! i = Some b -> update_stocks i b = Ok tt)
  /\ not_empty = filter (fun u => stock u <> 0) stocks
  /\ exists ids n,
       get_offer_ids get_product_list fuel = Some (Ok ids, n)
       /\ map stock_offer_id stocks ≡ₚ ids.
Proof.
  unfold upload_stocks.
  destruct (get_offer_ids get_product_list fuel) as [[[ids|e] n]|] eqn:Eg;
    [|done..].
  destruct (create_stocks ws ids) as [[st|e] ids'] eqn:Ec; [|done].
  destruct (divide_bounds st 100 ltac:(lia)) as (chunks & -> & Hcat & Hb & _).
  destruct (submit_each update_stocks 0 chunks []) as [[u|e] calls'] eqn:Es;
    [|done].
  intros [= <- <- <-]. apply submit_each_ok in Es as [-> Hacc]. simpl.
  split; [done|]. split; [done|]. split; [exact Hacc|]. split; [done|].
  exists ids, n. split; [done|].
  destruct (create_stocks_Ok _ _ _ _ Ec) as (s & Hs & ->).
  rewrite map_app, map_map. simpl. rewrite map_id.
  apply (stocks_scan_perm _ _ _ _ _ Hs).
Qed.

(** X16.  Every entry of [not_empty] comes from a row of the feed whose
    quantity parsed to a non-zero stock; an offer id that the feed does not
    carry, and a row with quantity 1, never show up in it. *)
Theorem upload_stocks_not_empty (fuel : nat) (ws : list watch)
    (not_empty stocks : list stock_update) (calls : list (list stock_update)) :
  upload_stocks get_product_list update_stocks fuel ws
  = Some (Ok (not_empty, stocks), calls) ->
  Forall (fun u => stock u <> 0
                   /\ exists w, w ∈ ws /\ stock_entry_of w = Ok u) not_empty.
Proof.
  unfold upload_stocks.
  destruct (get_offer_ids get_product_list fuel) as [[[ids|e] n]|] eqn:Eg;
    [|done..].
  destruct (create_stocks ws ids) as [[st|e] ids'] eqn:Ec; [|done].
  destruct (divide st 100) as [chunks|e]; [|done].
  destruct (submit_each update_stocks 0 chunks []) as [[u|e] calls'] eqn:Es;
    [|done].
  intros [= <- <- <-]. apply Forall_forall. intros u' Hu.
  apply list_elem_of_filter in Hu as [Hnz Hu]. split; [done|].
  destruct (create_stocks_Ok _ _ _ _ Ec) as (s & Hs & ->).
  destruct (stocks_scan_entries _ _ _ _ _ Hs) as (m & -> & Hm).
  simpl in Hu. apply elem_of_app in Hu as [Hu|Hu].
  - rewrite Forall_forall in Hm. by apply Hm.
  - apply list_elem_of_fmap in Hu as (o & -> & _). by simpl in Hnz.
Qed.

(** X17.  When [upload_prices] returns, it returns the price list and has
    sent it whole, in order, in accepted batches of 1 to 1000 entries; when
    no row matches, no request is made at all. *)
Theorem upload_prices_sends_all (fuel : nat) (ws : list watch)
    (prices : list price_update) (calls : list (list price_update)) :
  upload_prices get_product_list update_price fuel ws = Some (Ok prices, calls) ->
  concat calls = prices
  /\ Forall (fun b => 1 <= Z.of_nat (length b) <= 1000) calls
  /\ (forall i b, calls !! i = Some b -> update_price i b = Ok tt)
  /\ (calls = [] <-> prices = [])
  /\ exists ids n,
       get_offer_ids get_product_list fuel = Some (Ok ids, n)
       /\ create_prices ws ids = Ok prices.
Proof.
  unfold upload_prices.
  destruct (get_offer_ids get_product_list fuel) as [[[ids|e] n]|] eqn:Eg;
    [|done..].
  destruct (create_prices ws ids) as [pr|e] eqn:Ec; [|done].
  destruct (divide_bounds pr 1000 ltac:(lia)) as (chunks & -> & Hcat & Hb & Hnil).
  destruct (submit_each update_price 0 chunks []) as [[u|e] calls'] eqn:Es;
    [|done].
  intros [= <- <-]. apply submit_each_ok in Es as [-> Hacc]. simpl.
  split; [done|]. split; [done|]. split; [exact Hacc|]. split; [done|].
  by exists ids, n.
Qed.

(** X18.  When [upload_prices] raises, either nothing was sent (the listing
    or a price conversion failed), or a request was refused: then the
    requests made are the batches up to and including the refused one, the
    earlier ones were accepted, no later one was attempted, and the
    exception is that of the refused request. *)
Theorem upload_prices_stops_at_failure (fuel : nat) (ws : list watch)
    (e : exn) (calls : list (list price_update)) :
  upload_prices get_product_list update_price fuel ws = Some (Raise e, calls) ->
  (calls = []
   /\ ((exists n, get_offer_ids get_product_list fuel = Some (Raise e, n))
       \/ (exists ids n,
             get_offer_ids get_product_list fuel = Some (Ok ids, n)
             /\ create_prices ws ids = Raise e)))
  \/ (exists ids n prices chunks j b,
        get_offer_ids get_product_list fuel = Some (Ok ids, n)
        /\ create_prices ws ids = Ok prices
        /\ divide prices 1000 = Ok chunks
        /\ chunks !! j = Some b
        /\ update_price j b = Raise e
        /\ (forall i b', (i < j)%nat -> chunks !! i = Some b' ->
                         update_price i b' = Ok tt)
        /\ calls = take (S j) chunks).
Proof.
  unfold upload_prices.
  destruct (get_offer_ids get_product_list fuel) as [[[ids|e'] n]|] eqn:Eg;
    [| |done].
  - destruct (create_prices ws ids) as [pr|e'] eqn:Ec.
    + destruct (divide_bounds pr 1000 ltac:(lia)) as (chunks & Hd & _).
      rewrite Hd.
      destruct (submit_each update_price 0 chunks []) as [[u|e'] calls'] eqn:Es;
        [done|].
      intros [= <- <-].
      apply submit_each_raise in Es as (j & b & Hb & He & Hbefore & ->).
      right. exists ids, n, pr, chunks, j, b. done.
    + intros [= <- <-]. left. split; [done|]. right. by exists ids, n.
  - intros [= <- <-]. left. split; [done|]. left. by exists n.
Qed.

End DriverFacts.

(** ** main *)

(** X19.  In [main], when the catalogue's offer ids are distinct, no price
    request is ever made: the price list is built from the list of offer
    ids that the stock run has emptied of every id the feed carries.  And
    when no exception was caught, the stock requests, put together, hold
    one entry for each offer id of the catalogue. *)
Theorem main_sends_no_price
    (get_product_list : nat -> string -> result product_page)
    (update_stocks : nat -> list stock_update -> result unit)
    (update_price : nat -> list price_update -> result unit)
    (download_stock : result (list watch))
    (fuel : nat) (ids : list string) (n : nat) (t : main_trace) :
  get_offer_ids get_product_list fuel = Some (Ok ids, n) ->
  NoDup ids ->
  main get_product_list update_stocks update_price download_stock fuel = Some t ->
  price_calls t = []
  /\ (caught t = None -> map stock_offer_id (concat (stock_calls t)) ≡ₚ ids).
Proof.
  intros Hg Hnd. unfold main. rewrite Hg.
  destruct download_stock as [ws|e]; [|by intros [= <-]].
  destruct (create_stocks ws ids) as [[st|e] ids'] eqn:Ec; [|by intros [= <-]].
  destruct (divide_bounds st 100 ltac:(lia)) as (chunks & -> & Hcat & _).
  destruct (submit_each update_stocks 0 chunks []) as [[u|e] calls] eqn:Es;
    [|by intros [= <-]].
  apply submit_each_ok in Es as [-> _].
  rewrite (create_stocks_state _ _ _ _ Ec), (prices_after_stocks ws ids Hnd).
  change (divide [] 900) with (@Ok (list (list price_update)) []). simpl.
  intros [= <-]. simpl. split; [done|]. intros _. rewrite Hcat.
  destruct (create_stocks_Ok _ _ _ _ Ec) as (s & Hs & ->).
  rewrite map_app, map_map. simpl. rewrite map_id.
  apply (stocks_scan_perm _ _ _ _ _ Hs).
Qed.

(** ** The drivers on a two-offer catalogue *)

Lemma upload_stocks_sends_all_witness :
  let ws := [row (PyStr "A") (PyInt 5) (PyStr "10.00")] in
  let stocks := [StockUpdate "A" 5; StockUpdate "B" 0] in
  upload_stocks two_offers accept_all 1 ws
  = Some (Ok ([StockUpdate "A" 5], stocks), [stocks])
  /\ concat [stocks] = stocks
  /\ Forall (fun b => 1 <= Z.of_nat (length b) <= 100) [stocks].
Proof.
  intros ws stocks.
  assert (H : upload_stocks two_offers accept_all 1 ws
              = Some (Ok ([StockUpdate "A" 5], stocks), [stocks]))
    by reflexivity.
  split; [exact H|].
  destruct (upload_stocks_sends_all two_offers accept_all 1 ws _ _ _ H)
    as (H1 & H2 & _).
  exact (conj H1 H2).
Defined.

Lemma upload_stocks_not_empty_witness :
  let ws := [row (PyStr "A") (PyInt 5) (PyStr "10.00");
             row (PyStr "B") (PyStr "1") (PyStr "20.00")] in
  upload_stocks two_offers accept_all 1 ws
  = Some (Ok ([StockUpdate "A" 5], [StockUpdate "A" 5; StockUpdate "B" 0]),
          [[StockUpdate "A" 5; StockUpdate "B" 0]])
  /\ Forall (fun u => stock u <> 0
                      /\ exists w, w ∈ ws /\ stock_entry_of w = Ok u)
            [StockUpdate "A" 5].
Proof.
  intros ws.
  assert (H : upload_stocks two_offers accept_all 1 ws
              = Some (Ok ([StockUpdate "A" 5],
                          [StockUpdate "A" 5; StockUpdate "B" 0]),
                      [[StockUpdate "A" 5; StockUpdate "B" 0]]))
    by reflexivity.
  split; [exact H|].
  exact (upload_stocks_not_empty two_offers accept_all 1 ws _ _ _ H).
Defined.

Lemma upload_prices_sends_all_witness :
  let ws := [row (PyStr "A") (PyInt 5) (PyStr "10.00")] in
  let prices := [PriceUpdate "UNKNOWN" "RUB" "A" "0" "10"] in
  upload_prices two_offers accept_all 1 ws = Some (Ok prices, [prices])
  /\ concat [prices] = prices
  /\ Forall (fun b => 1 <= Z.of_nat (length b) <= 1000) [prices].
Proof.
  intros ws prices.
  assert (H : upload_prices two_offers accept_all 1 ws = Some (Ok prices, [prices]))
    by reflexivity.
  split; [exact H|].
  destruct (upload_prices_sends_all two_offers accept_all 1 ws _ _ H)
    as (H1 & H2 & _).
  exact (conj H1 H2).
Defined.

Lemma upload_prices_stops_at_failure_witness :
  let ws := [row (PyStr "A") (PyInt 5) (PyStr "10.00")] in
  let prices := [PriceUpdate "UNKNOWN" "RUB" "A" "0" "10"] in
  upload_prices two_offers (accept_first 0) 1 ws = Some (Raise HTTPError, [prices])
  /\ (([prices] = []
       /\ ((exists n, get_offer_ids two_offers 1 = Some (Raise HTTPError, n))
           \/ (exists ids n,
                 get_offer_ids two_offers 1 = Some (Ok ids, n)
                 /\ create_prices ws ids = Raise HTTPError)))
      \/ (exists ids n prices' chunks j b,
            get_offer_ids two_offers 1 = Some (Ok ids, n)
            /\ create_prices ws ids = Ok prices'
            /\ divide prices' 1000 = Ok chunks
            /\ chunks !! j = Some b
            /\ accept_first 0 j b = Raise HTTPError
            /\ (forall i b', (i < j)%nat -> chunks !! i = Some b' ->
                             accept_first 0 i b' = Ok tt)
            /\ [prices] = take (S j) chunks)).
Proof.
  intros ws prices.
  assert (H : upload_prices two_offers (accept_first 0) 1 ws
              = Some (Raise HTTPError, [prices])) by reflexivity.
  split; [exact H|].
  exact (upload_prices_stops_at_failure two_offers (accept_first 0) 1 ws _ _ H).
Defined.

Lemma main_sends_no_price_witness :
  let ws := [row (PyStr "A") (PyInt 5) (PyStr "10.00");
             row (PyStr "B") (PyInt 7) (PyStr "20.00")] in
  get_offer_ids two_offers 1 = Some (Ok ["A"; "B"], 1%nat)
  /\ NoDup ["A"; "B"]
  /\ main two_offers accept_all accept_all (Ok ws) 1
     = Some (MainTrace [[StockUpdate "A" 5; StockUpdate "B" 7]] [] None)
  /\ price_calls (MainTrace [[StockUpdate "A" 5; StockUpdate "B" 7]] [] None) = [].
Proof.
  intros ws.
  assert (Hg : get_offer_ids two_offers 1 = Some (Ok ["A"; "B"], 1%nat))
    by reflexivity.
  assert (Hnd : NoDup ["A"; "B"])
    by (apply (bool_decide_unpack _); vm_compute; exact I).
  assert (Hm : main two_offers accept_all accept_all (Ok ws) 1
               = Some (MainTrace [[StockUpdate "A" 5; StockUpdate "B" 7]] [] None))
    by reflexivity.
  split; [exact Hg|]. split; [exact Hnd|]. split; [exact Hm|].
  exact (proj1 (main_sends_no_price two_offers accept_all accept_all (Ok ws)
                  1 _ _ _ Hg Hnd Hm)).
Defined.

(** ** Feeds with integer quantities *)

(** X20.  An integer quantity cell never fails to parse: 1 gives the stock
    0 and every other integer, negative ones included, gives itself.  Hence
    on a feed whose quantity cells are all integers [create_stocks] always
    returns a list. *)
Theorem create_stocks_integer_feed :
  (forall z : Z, stock_of (PyInt z) = Ok (if decide (z = 1) then 0 else z))
  /\ (forall (ws : list watch) (ids : list string),
        (forall w, w ∈ ws -> exists z, get w Kolichestvo = PyInt z) ->
        is_ok (fst (create_stocks ws ids)) = true).
Proof.
  assert (forall z : Z, stock_of (PyInt z) = Ok (if decide (z = 1) then 0 else z))
    as Hint.
  { intros z. unfold stock_of.
    destruct (decide (Py.str (PyInt z) = ">10")) as [E|_];
      [by apply str_int_not_gt10 in E|].
    destruct (decide (Py.str (PyInt z) = "1")) as [E|NE].
    - apply str_int_1 in E. by rewrite decide_True.
    - rewrite decide_False; [done|]. by intros ->. }
  split; [exact Hint|].
  intros ws ids Hall.
  destruct (fst (create_stocks ws ids)) as [s|e] eqn:E; [done|].
  apply (proj2 (create_stocks_fst ws ids)) in E.
  apply stocks_scan_raise in E as (pre & w & post & -> & _ & He).
  destruct (Hall w) as [z Hz]; [apply elem_of_app; right; left|].
  rewrite Hz, Hint in He. done.
Qed.

Lemma create_stocks_integer_feed_witness :
  let ws := [row (PyStr "A") (PyInt (-3)) PyNone; row (PyStr "B") (PyInt 1) PyNone] in
  (forall w, w ∈ ws -> exists z, get w Kolichestvo = PyInt z)
  /\ is_ok (fst (create_stocks ws ["A"; "B"])) = true
  /\ fst (create_stocks ws ["A"; "B"]) = Ok [StockUpdate "A" (-3); StockUpdate "B" 0].
Proof.
  intros ws.
  assert (H : forall w, w ∈ ws -> exists z, get w Kolichestvo = PyInt z).
  { intros w Hw. apply elem_of_cons in Hw as [->|Hw]; [by exists (-3)|].
    apply elem_of_cons in Hw as [->|Hw]; [by exists 1|].
    by apply elem_of_nil in Hw. }
  split; [exact H|]. split; [|reflexivity].
  exact (proj2 create_stocks_integer_feed ws ["A"; "B"] H).
Defined.
